(** * Slash-command interactions of discord.js

    A shallow embedding of [InteractionClient] (the dispatcher [handle], the
    webhook [middleware] and [handleFromGateway]) and of [CommandInteraction]
    (the option resolver [map] of its constructor and [reply]), followed by
    the properties of the response race, of option resolution and of the two
    transports.

    JavaScript values are modelled by a small value type, exceptions by a
    completion type, objects used as tables by [gmap string _], and the
    promise that [handle] awaits by a one-shot cell.  What the two files
    import and do not define (the enums of [util/Constants], the entity
    classes and their managers, [util/Sodium], the [Interaction] base class,
    [Buffer] and [JSON]) is taken as a parameter. *)

From Stdlib Require Import ZArith Bool List.
From stdpp Require Import base option list strings pretty gmap.

Open Scope Z_scope.
#[local] Set Warnings "-register-all".

(** ** JavaScript values and completions *)

Module JS.

(** Primitive values, as far as the two files inspect them. *)
Inductive Value :=
| undefined
| null
| boolean (b : bool)
| number (n : Z)
| text (s : string).

#[global] Instance Value_eq_dec : EqDecision Value.
Proof. solve_decision. Defined.

(** [a === b] on primitives. *)
Definition strict_eq (a b : Value) : bool := bool_decide (a = b).

(** [String(v)], which is also the property key that [obj[v]] reads. *)
Definition ToString (v : Value) : string :=
  match v with
  | undefined => "undefined"
  | null => "null"
  | boolean true => "true"
  | boolean false => "false"
  | number n => pretty n
  | text s => s
  end.

(** Parsed JSON that the code passes on without looking inside. *)
Inductive Json :=
| JValue (v : Value)
| JArray (items : list Json)
| JObject (fields : list (string * Json)).

Inductive Error :=
| TypeError (msg : string)
| SyntaxError (msg : string)
| OtherError (msg : string).

(** The outcome of evaluating an expression: a value or a thrown error. *)
Inductive Completion (A : Type) :=
| Normal (a : A)
| Throw (e : Error).
Arguments Normal {A} a.
Arguments Throw {A} e.

#[global] Instance Completion_ret : MRet Completion := fun A a => Normal a.
#[global] Instance Completion_bind : MBind Completion := fun A B f m =>
  match m with
  | Normal a => f a
  | Throw e => Throw e
  end.

#[global] Instance Completion_fmap : FMap Completion := fun A B f m =>
  match m with
  | Normal a => Normal (f a)
  | Throw e => Throw e
  end.

(** An object used as a table: [obj.key], [undefined] when absent. *)
Definition prop (obj : gmap string Value) (key : string) : Value :=
  default undefined (obj !! key).

(** Reading a property of something that may be [undefined]. *)
Definition member_of {A : Type} (what : string) (o : option A) : Completion A :=
  match o with
  | Some a => Normal a
  | None => Throw (TypeError ("Cannot read property of undefined: " +:+ what))
  end.

(** The state of a promise. *)
Inductive Settled (A : Type) :=
| Pending
| Fulfilled (a : A)
| Rejected (e : Error).
Arguments Pending {A}.
Arguments Fulfilled {A} a.
Arguments Rejected {A} e.

End JS.
Import JS.

(** ** util/Constants

    The enums are objects created elsewhere; each is a table from property
    keys to values, read both by name ([InteractionType.PING]) and by index
    ([ApplicationCommandOptionType[o.type]]). *)

Record Constants := {
  Events : gmap string Value;
  ApplicationCommandOptionType : gmap string Value;
  InteractionType : gmap string Value;
  InteractionResponseType : gmap string Value;
}.

(** The enum tables of the wire protocol, used to run the model on
    concrete payloads. *)
Definition createEnum (keys : list (option string)) : gmap string Value :=
  foldr (fun '(index, key) obj =>
           match key with
           | None => obj
           | Some k => <[k := number (Z.of_nat index)]> (<[pretty (Z.of_nat index) := text k]> obj)
           end) ∅ (imap (fun i k => (i, k)) keys).

Definition wire : Constants := {|
  Events := {[ "INTERACTION_CREATE" := text "interactionCreate" ]};
  ApplicationCommandOptionType :=
    createEnum [None; Some "SUB_COMMAND"; Some "SUB_COMMAND_GROUP"; Some "STRING";
                Some "INTEGER"; Some "BOOLEAN"; Some "USER"; Some "CHANNEL"; Some "ROLE"];
  InteractionType := createEnum [None; Some "PING"; Some "APPLICATION_COMMAND"];
  InteractionResponseType :=
    createEnum [None; Some "PONG"; None; None; Some "CHANNEL_MESSAGE_WITH_SOURCE";
                Some "DEFERRED_CHANNEL_MESSAGE_WITH_SOURCE"];
|}.

(** ** Payloads *)

(** A member payload; [rm_user] is its [user] property, which the resolver
    assigns. *)
Record RawMember := {
  rm_fields : list (string * Json);
  rm_user : option Json;
}.

(** [data.data.resolved]: one table per entity kind, keyed by identifier. *)
Record ResolvedData := {
  rd_users : option (gmap string Json);
  rd_members : option (gmap string RawMember);
  rd_channels : option (gmap string Json);
  rd_roles : option (gmap string Json);
}.

(** A raw option [{type, name, value, options}]; absent properties read as
    [undefined]. *)
Inductive RawOption :=
| RawOpt (type name value : Value) (options : option (list RawOption)).

Definition o_type (o : RawOption) : Value := let 'RawOpt t _ _ _ := o in t.
Definition o_name (o : RawOption) : Value := let 'RawOpt _ n _ _ := o in n.
Definition o_value (o : RawOption) : Value := let 'RawOpt _ _ v _ := o in v.
Definition o_options (o : RawOption) : option (list RawOption) :=
  let 'RawOpt _ _ _ l := o in l.

(** [data.data] of a command payload. *)
Record CommandData := {
  cd_id : Value;
  cd_name : Value;
  cd_options : option (list RawOption);
  cd_resolved : option ResolvedData;
}.

(** The interaction payload [data] given to [handle]. *)
Record Payload := {
  p_id : Value;
  p_type : Value;
  p_token : Value;
  p_data : option CommandData;
}.

(** What [apiMessage.resolveFiles()] yields. *)
Record ResolvedMessage := {
  msg_data : Json;
  msg_files : list Json;
}.

(** The acknowledgment [{type, data?}] that [handle] returns. *)
Record Envelope := {
  env_type : Value;
  env_data : option Json;
}.

(** Calls on the REST router [client.api]. *)
Inductive ApiCall :=
| webhooks_post (applicationID token : Value) (auth : bool) (data : Json)
    (files : list Json) (wait : bool)
| interactions_callback_post (id token : Value) (data : option Envelope) (wait : bool).

(** An identifier of the protocol: a string of decimal digits.  No
    property of [Object.prototype] has such a name, so a table read under
    an identifier finds the table's own entry or nothing. *)
Definition is_digit (a : Ascii.ascii) : bool :=
  Nat.leb 48 (Ascii.nat_of_ascii a) && Nat.leb (Ascii.nat_of_ascii a) 57.

Fixpoint digits (s : string) : bool :=
  match s with
  | EmptyString => true
  | String a rest => is_digit a && digits rest
  end.

Definition snowflake (v : Value) : bool :=
  match v with
  | text (String a rest) => is_digit a && digits rest
  | _ => false
  end.

(** ** Entity classes, managers and the interaction context

    [User], [GuildMember], [Channel] and [Role] and the managers that cache
    them are collaborators.  A manager is the object whose [add] method the
    resolver calls; a constructor call or an [add] may throw. *)

Class Structures := {
  User : Type;
  GuildMember : Type;
  Channel : Type;
  Role : Type;
}.

Section Interactions.

Context `{Structures}.

(** [guild.members] and [guild.roles]. *)
Record Guild := {
  members_add : RawMember -> bool -> Completion (option GuildMember);
  roles_add : option Json -> bool -> Completion Role;
}.

(** [client.users] and [client.channels], each of which a client may lack. *)
Record Client := {
  client_users : option (option Json -> bool -> Completion User);
  client_channels : option (option Json -> bool -> Completion Channel);
}.

(** The fields that the [Interaction] super constructor leaves on [this]. *)
Record Interaction := {
  client : Client;
  guild : option Guild;
  id : Value;
  applicationID : Value;
  token : Value;
}.

(** An incoming request: [req.get(name)] and the chunks of the body. *)
Record Request := {
  req_get : string -> option string;
  req_chunks : list (list Byte.byte);
}.

(** What the two files use and do not define: the enums [K]; the
    constructors [new User(client, data)], [Channel.create(client, data,
    guild)], [new Role(client, data, guild)] and the [Interaction] super
    constructor; [Buffer.from(s, 'hex')], [Buffer.from(s)],
    [buffer.toString()], [JSON.parse], [JSON.stringify] and
    [sodium.methods.verify]. *)
Class Runtime := {
  K : Constants;
  User_new : Client -> option Json -> Completion User;
  Channel_create : Client -> option Json -> option Guild -> Completion Channel;
  Role_new : Client -> option Json -> option Guild -> Completion Role;
  Interaction_new : Client -> Payload -> Completion Interaction;
  Buffer_from_hex : string -> list Byte.byte;
  Buffer_from : string -> list Byte.byte;
  Buffer_toString : list Byte.byte -> string;
  JSON_parse : string -> Completion Payload;
  JSON_stringify : option Envelope -> option string;
  sodium_verify :
    list Byte.byte -> list Byte.byte -> option (list Byte.byte) -> Completion bool;
}.

Context `{Runtime}.

(** ** CommandInteraction: the option resolver *)

(** A resolved option, one constructor per object literal that [map]
    returns; [NodeRaw] is the [default] case, which returns [o] itself. *)
Inductive OptionNode :=
| NodeOptions (name type : Value) (options : list OptionNode)
| NodeValue (name type value : Value)
| NodeUser (name type : Value) (user : User) (member : option GuildMember)
| NodeChannel (name type : Value) (channel : Channel)
| NodeRole (name type : Value) (role : Role)
| NodeRaw (o : RawOption).

(** [array.map(f)] for an [f] that reads and writes the payload [data]. *)
Definition Array_map {A B S : Type} (f : A -> S -> Completion (B * S))
  : list A -> S -> Completion (list B * S) :=
  fix go (l : list A) (s : S) : Completion (list B * S) :=
    match l with
    | [] => Normal ([], s)
    | x :: xs =>
        match f x s with
        | Throw e => Throw e
        | Normal (y, s1) =>
            match go xs s1 with
            | Throw e => Throw e
            | Normal (ys, s2) => Normal (y :: ys, s2)
            end
        end
    end.

(** [data.data.resolved], then one of its tables, then the entry under
    [o.value].  [entry] reads the table's own properties: it is
    [table[o.value]] for the values that name no property inherited from
    [Object.prototype], as identifiers do ([snowflake]); the properties
    read through the prototype are outside this model. *)
Definition resolved_of (data : Payload) : Completion ResolvedData :=
  cd ← member_of "data" (p_data data);
  member_of "resolved" (cd_resolved cd).

Definition entry {A : Type} (what : string) (table : option (gmap string A))
  (key : Value) : Completion (option A) :=
  t ← member_of what table;
  Normal (t !! ToString key).

(** [rawMember.user = rawUser] on the member stored under [key]. *)
Definition assign_user (rawUser : option Json) (rawMember : RawMember) : RawMember :=
  {| rm_fields := rm_fields rawMember; rm_user := rawUser |}.

Definition store_member (key : Value) (rawMember : RawMember) (data : Payload) : Payload :=
  {| p_id := p_id data; p_type := p_type data; p_token := p_token data;
     p_data := (fun cd =>
       {| cd_id := cd_id cd; cd_name := cd_name cd; cd_options := cd_options cd;
          cd_resolved := (fun rd =>
            {| rd_users := rd_users rd;
               rd_members := <[ToString key := rawMember]> <$> rd_members rd;
               rd_channels := rd_channels rd;
               rd_roles := rd_roles rd |}) <$> cd_resolved cd |}) <$> p_data data |}.

(** The [case] that the [switch (o.type)] of [map] selects. *)
Inductive OptionCase :=
| CaseSubCommand | CaseSubCommandGroup | CaseString | CaseInteger | CaseBoolean
| CaseUser | CaseChannel | CaseRole | CaseDefault.

Definition option_code (name : string) : Value :=
  prop (ApplicationCommandOptionType K) name.

Definition option_case (type : Value) : OptionCase :=
  if strict_eq type (option_code "SUB_COMMAND") then CaseSubCommand
  else if strict_eq type (option_code "SUB_COMMAND_GROUP") then CaseSubCommandGroup
  else if strict_eq type (option_code "STRING") then CaseString
  else if strict_eq type (option_code "INTEGER") then CaseInteger
  else if strict_eq type (option_code "BOOLEAN") then CaseBoolean
  else if strict_eq type (option_code "USER") then CaseUser
  else if strict_eq type (option_code "CHANNEL") then CaseChannel
  else if strict_eq type (option_code "ROLE") then CaseRole
  else CaseDefault.

(** [ApplicationCommandOptionType[o.type]]. *)
Definition option_type_name (type : Value) : Value :=
  prop (ApplicationCommandOptionType K) (ToString type).

(** The [USER], [CHANNEL] and [ROLE] cases. *)
Definition map_user (this : Interaction) (o : RawOption) (data : Payload)
  : Completion (OptionNode * Payload) :=
  rd ← resolved_of data;
  rawUser ← entry "users" (rd_users rd) (o_value o);
  rawMember ← entry "members" (rd_members rd) (o_value o);
  let merged := assign_user rawUser <$> rawMember in
  let data1 := from_option (fun m => store_member (o_value o) m data) data merged in
  user ← match client_users (client this) with
         | Some add => add rawUser false
         | None => User_new (client this) rawUser
         end;
  member ← match merged with
           | Some m =>
               match guild this with
               | Some g => members_add g m false
               | None => Normal None
               end
           | None => Normal None
           end;
  Normal (NodeUser (o_name o) (option_type_name (o_type o)) user member, data1).

Definition map_channel (this : Interaction) (o : RawOption) (data : Payload)
  : Completion (OptionNode * Payload) :=
  rd ← resolved_of data;
  raw ← entry "channels" (rd_channels rd) (o_value o);
  channel ← match client_channels (client this) with
            | Some add => add raw false
            | None => Channel_create (client this) raw (guild this)
            end;
  Normal (NodeChannel (o_name o) (option_type_name (o_type o)) channel, data).

Definition map_role (this : Interaction) (o : RawOption) (data : Payload)
  : Completion (OptionNode * Payload) :=
  rd ← resolved_of data;
  raw ← entry "roles" (rd_roles rd) (o_value o);
  role ← match guild this with
         | Some g => roles_add g raw false
         | None => Role_new (client this) raw None
         end;
  Normal (NodeRole (o_name o) (option_type_name (o_type o)) role, data).

(** The arrow function [map] of the constructor. *)
Fixpoint map (this : Interaction) (o : RawOption) (data : Payload) {struct o}
  : Completion (OptionNode * Payload) :=
  match o with
  | RawOpt type name value options =>
      match option_case type with
      | CaseSubCommand | CaseSubCommandGroup =>
          match options with
          | None => Throw (TypeError "Cannot read property of undefined: map")
          | Some l =>
              match Array_map (map this) l data with
              | Throw e => Throw e
              | Normal (ns, data1) =>
                  Normal (NodeOptions name (option_type_name type) ns, data1)
              end
          end
      | CaseString | CaseInteger | CaseBoolean =>
          Normal (NodeValue name (option_type_name type) value, data)
      | CaseUser => map_user this o data
      | CaseChannel => map_channel this o data
      | CaseRole => map_role this o data
      | CaseDefault => Normal (NodeRaw o, data)
      end
  end.







(** A constructed [CommandInteraction]. *)
Record CommandInteraction := {
  base : Interaction;
  commandID : Value;
  commandName : Value;
  options : list OptionNode;
}.

(** [new CommandInteraction(client, data, syncHandle)]; the handle is the
    race of the enclosing [handle] call and is kept there. *)
Definition CommandInteraction_new (c : Client) (data : Payload)
  : Completion CommandInteraction :=
  this ← Interaction_new c data;
  cd ← member_of "id" (p_data data);
  raw ← member_of "map" (cd_options cd);
  '(opts, _) ← Array_map (map this) raw data;
  Normal {| base := this; commandID := cd_id cd; commandName := cd_name cd;
            options := opts |}.

(** ** InteractionClient.handle: the response race *)

(** The two variables that the closures of [handle] share: the flag
    [timedOut] and the promise [directPromise], pending while [None]. *)
Record Race := {
  timedOut : bool;
  directPromise : option Envelope;
}.

Definition response_code (name : string) : Value :=
  prop (InteractionResponseType K) name.

(** [resolve(v)], also called [r(v)]: settles the promise unless it is
    settled already. *)
Definition resolve (v : Envelope) (race : Race) : Race :=
  {| timedOut := timedOut race;
     directPromise := match directPromise race with
                      | None => Some v
                      | Some w => Some w
                      end |}.

(** The two envelopes of the race: the one without [data] that the timer
    resolves with, and the one that a reply resolves with. *)
Definition deferred : Envelope :=
  {| env_type := response_code "DEFERRED_CHANNEL_MESSAGE_WITH_SOURCE";
     env_data := None |}.

Definition immediate (resolved : ResolvedMessage) : Envelope :=
  {| env_type := response_code "CHANNEL_MESSAGE_WITH_SOURCE";
     env_data := Some (msg_data resolved) |}.

(** The callback armed with [setTimeout(..., 250)]. *)
Definition timer_callback (race : Race) : Race :=
  resolve deferred {| timedOut := true; directPromise := directPromise race |}.

(** [syncHandle.reply(resolved)]. *)
Definition syncHandle_reply (resolved : ResolvedMessage) (race : Race) : bool * Race :=
  if timedOut race then (false, race)
  else (true, resolve (immediate resolved) race).

(** Once the flag is set the promise is settled: the timer callback does
    both in one turn. *)
Definition coherent (r : Race) : Prop :=
  timedOut r = true -> is_Some (directPromise r).

(** What the code does to the outside, in the order in which it happens.
    [invoked] marks an entry into [handle]. *)
Inductive Effect :=
| invoked (data : Payload)
| setTimeout (ms : Z)
| emit_interaction (event : Value) (interaction : CommandInteraction)
| emit_text (event : Value) (message : string)
| api (call : ApiCall)
| res_status (code : Z)
| res_end (body : option string).

Record World := {
  race : Race;
  effects : list Effect;
}.

(** [CommandInteraction.reply] from the point where [resolveFiles()] has
    delivered [resolved]: the attempt on the handle, and the followup POST
    when the attempt returns [false]. *)
Definition followup (this : CommandInteraction) (resolved : ResolvedMessage) : Effect :=
  api (webhooks_post (applicationID (base this)) (token (base this)) false
         (msg_data resolved) (msg_files resolved) true).

Definition reply (this : CommandInteraction) (resolved : ResolvedMessage) (w : World)
  : World :=
  let '(won, race1) := syncHandle_reply resolved (race w) in
  if negb won then
    {| race := race1; effects := effects w ++ [followup this resolved] |}
  else {| race := race1; effects := effects w |}.

(** What the scheduler may run while [handle] is suspended on
    [await directPromise]. *)
Inductive Event :=
| timer_fired
| reply_resolved (resolved : ResolvedMessage).

(** One scheduler turn.  When it settles the promise, the code that awaits
    [handle] resumes with the envelope; [k] is that code. *)
Definition step (this : CommandInteraction) (k : option Envelope -> list Effect)
  (ev : Event) (w : World) : World :=
  let w1 := match ev with
            | timer_fired => {| race := timer_callback (race w); effects := effects w |}
            | reply_resolved resolved => reply this resolved w
            end in
  match directPromise (race w), directPromise (race w1) with
  | None, Some r => {| race := race w1; effects := effects w1 ++ k (Some r) |}
  | _, _ => w1
  end.

Definition run (this : CommandInteraction) (k : option Envelope -> list Effect)
  (schedule : list Event) (w : World) : World :=
  foldl (fun w ev => step this k ev w) w schedule.

(** The world in which [handle] suspends on [await directPromise]: the
    timer is armed, the race is open and the interaction has been emitted. *)
Definition suspended (data : Payload) (interaction : CommandInteraction) : World :=
  {| race := {| timedOut := false; directPromise := None |};
     effects := [invoked data; setTimeout 250;
                 emit_interaction (prop (Events K) "INTERACTION_CREATE") interaction] |}.

(** [handle(data)], followed by [k] once it has returned, under a schedule
    of timer and reply events.  The result is the state of the promise that
    [handle] returns. *)
Definition handle (c : Client) (data : Payload) (k : option Envelope -> list Effect)
  (schedule : list Event) : list Effect * Settled (option Envelope) :=
  if strict_eq (p_type data) (prop (InteractionType K) "PING") then
    let r := Some {| env_type := response_code "PONG"; env_data := None |} in
    (invoked data :: k r, Fulfilled r)
  else if strict_eq (p_type data) (prop (InteractionType K) "APPLICATION_COMMAND") then
    match CommandInteraction_new c data with
    | Throw e => ([invoked data; setTimeout 250], Rejected e)
    | Normal interaction =>
        let w := run interaction k schedule (suspended data interaction) in
        (effects w,
         match directPromise (race w) with
         | None => Pending
         | Some r => Fulfilled (Some r)
         end)
    end
  else
    (invoked data ::
       emit_text (text "debug") ("[INTERACTION] unknown type " +:+ ToString (p_type data)) ::
       k None,
     Fulfilled None).

(** ** The two transports *)

(** [Buffer.from] throws on an argument that is not a string. *)
Definition string_arg (s : option string) : Completion string :=
  match s with
  | Some x => Normal x
  | None => Throw (TypeError "The first argument must be of type string")
  end.

(** The function that [middleware()] returns, applied to a request. *)
Definition middleware (publicKey : option (list Byte.byte)) (c : Client) (req : Request)
  (schedule : list Event) : list Effect * Settled unit :=
  let timestamp := req_get req "x-signature-timestamp" in
  let signature := req_get req "x-signature-ed25519" in
  let body := concat (req_chunks req) in
  let verified :=
    sg ← string_arg signature;
    ts ← string_arg timestamp;
    sodium_verify (Buffer_from_hex sg) (Buffer_from ts ++ body) publicKey in
  match verified with
  | Throw e => ([], Rejected e)
  | Normal false => ([res_status 401; res_end None], Fulfilled ())
  | Normal true =>
      match JSON_parse (Buffer_toString body) with
      | Throw e => ([], Rejected e)
      | Normal data =>
          let '(effs, r) :=
            handle c data
              (fun result => [res_status 200; res_end (JSON_stringify result)])
              schedule in
          (effs, match r with
                 | Pending => Pending
                 | Fulfilled _ => Fulfilled ()
                 | Rejected e => Rejected e
                 end)
      end
  end.

(** [handleFromGateway(data)]. *)
Definition handleFromGateway (c : Client) (data : Payload) (schedule : list Event)
  : list Effect * Settled unit :=
  let '(effs, r) :=
    handle c data
      (fun result => [api (interactions_callback_post (p_id data) (p_token data) result true)])
      schedule in
  (effs, match r with
         | Pending => Pending
         | Fulfilled _ => Fulfilled ()
         | Rejected e => Rejected e
         end).


(** Trees whose user, channel and role options, as far as the resolver
    reaches them, carry an identifier as their value. *)
Fixpoint identified (o : RawOption) : bool :=
  match o with
  | RawOpt type _ value options =>
      match option_case type with
      | CaseUser | CaseChannel | CaseRole => snowflake value
      | CaseSubCommand | CaseSubCommandGroup =>
          match options with
          | Some l => forallb identified l
          | None => true
          end
      | _ => true
      end
  end.

(** ** Closed forms, used to state what a whole run does *)

(** The envelope that an event resolves a pending promise with. *)
Definition outcome (ev : Event) : Envelope :=
  match ev with
  | timer_fired => deferred
  | reply_resolved resolved => immediate resolved
  end.

(** The replies of a schedule that come after the timer has fired;
    [timed] tells whether it has fired before the schedule starts. *)
Fixpoint late_replies (timed : bool) (schedule : list Event) : list ResolvedMessage :=
  match schedule with
  | [] => []
  | timer_fired :: rest => late_replies true rest
  | reply_resolved resolved :: rest =>
      (if timed then [resolved] else []) ++ late_replies timed rest
  end.

(** A subcommand or group without an [options] array, at any depth that
    the resolver reaches. *)
Fixpoint bare (o : RawOption) : bool :=
  match o with
  | RawOpt type _ _ options =>
      match option_case type with
      | CaseSubCommand | CaseSubCommandGroup =>
          match options with
          | None => true
          | Some l => existsb bare l
          end
      | _ => false
      end
  end.

(** The payload without the [user] of its member payloads, the one thing
    that the resolver assigns. *)
Definition forget_user (rawMember : RawMember) : RawMember :=
  {| rm_fields := rm_fields rawMember; rm_user := None |}.

Definition forget_users (data : Payload) : Payload :=
  {| p_id := p_id data; p_type := p_type data; p_token := p_token data;
     p_data := (fun cd =>
       {| cd_id := cd_id cd; cd_name := cd_name cd; cd_options := cd_options cd;
          cd_resolved := (fun rd =>
            {| rd_users := rd_users rd;
               rd_members := (fun members : gmap string RawMember => forget_user <$> members)
                               <$> rd_members rd;
               rd_channels := rd_channels rd;
               rd_roles := rd_roles rd |}) <$> cd_resolved cd |}) <$> p_data data |}.

End Interactions.

(** ** InteractionClient: the command endpoints *)

Section Commands.

Context `{Structures} `{!Runtime}.

(** [Boolean(v)], as [if (guildID)] tests it. *)
Definition ToBoolean (v : Value) : bool :=
  match v with
  | undefined | null => false
  | boolean b => b
  | number n => negb (n =? 0)
  | text s => negb (bool_decide (s = ""))
  end.

(** An option of a command descriptor: its [type], its [options], and the
    other properties, which the spread copies. *)
Inductive OptionDescriptor :=
| Descriptor (type : Value) (rest : list (string * Json))
    (options : option (list OptionDescriptor)).

Record CommandDescriptor := {
  cmd_rest : list (string * Json);
  cmd_options : option (list OptionDescriptor);
}.

(** The function [m] of [transformCommand]; [o.options?.map(m)] is
    [undefined] when there are no options. *)
Fixpoint m (o : OptionDescriptor) : OptionDescriptor :=
  match o with
  | Descriptor type rest options =>
      Descriptor (prop (ApplicationCommandOptionType K) (ToString type)) rest
        match options with
        | Some l => Some (List.map m l)
        | None => None
        end
  end.

Definition transformCommand (command : CommandDescriptor) : Completion CommandDescriptor :=
  l ← member_of "map" (cmd_options command);
  Normal {| cmd_rest := cmd_rest command; cmd_options := Some (List.map m l) |}.

(** A descriptor with its types blanked, and its types in prefix order. *)
Fixpoint erase_types (o : OptionDescriptor) : OptionDescriptor :=
  match o with
  | Descriptor _ rest options =>
      Descriptor undefined rest
        match options with
        | Some l => Some (List.map erase_types l)
        | None => None
        end
  end.

Fixpoint types_of (o : OptionDescriptor) : list Value :=
  match o with
  | Descriptor type _ options =>
      type :: match options with
              | Some l => concat (List.map types_of l)
              | None => []
              end
  end.

(** What the endpoints read of [this]: [applicationID], which the
    constructor takes from [options.clientID], and [clientID], which
    [createCommand] reads and neither file defines. *)
Record InteractionClient := {
  ic_applicationID : Value;
  ic_clientID : Value;
}.

(** [new ApplicationCommand(this, c, guildID)]. *)
Variable ApplicationCommand : Type.
Variable ApplicationCommand_new :
  InteractionClient -> Json -> Value -> Completion ApplicationCommand.

(** Requests on [api.applications(id).commands] or, with a guild, on
    [api.applications(id).guilds(guildID).commands]. *)
Inductive CommandsCall :=
| commands_get (application : Value) (guild : option Value)
| commands_put (application : Value) (guild : option Value) (data : list CommandDescriptor)
| commands_post (application : Value) (guild : option Value) (data : CommandDescriptor).

Definition guild_of (guildID : Value) : option Value :=
  if ToBoolean guildID then Some guildID else None.

(** The application and guild that a request addresses. *)
Definition route_of (call : CommandsCall) : Value * option Value :=
  match call with
  | commands_get application guild
  | commands_put application guild _
  | commands_post application guild _ => (application, guild)
  end.

(** Each endpoint, given the response that the request is answered with:
    the request made, and what is returned once the response is there.  An
    exception before the request leaves no request. *)
Definition fetchCommands (this : InteractionClient) (guildID : Value) (response : list Json)
  : CommandsCall * Completion (list ApplicationCommand) :=
  (commands_get (ic_applicationID this) (guild_of guildID),
   mapM (fun c => ApplicationCommand_new this c guildID) response).

Definition setCommands (this : InteractionClient) (commands : list CommandDescriptor)
  (guildID : Value) (response : list Json)
  : Completion (CommandsCall * Completion (list ApplicationCommand)) :=
  data ← mapM transformCommand commands;
  Normal (commands_put (ic_applicationID this) (guild_of guildID) data,
          mapM (fun c => ApplicationCommand_new this c guildID) response).

Definition createCommand (this : InteractionClient) (command : CommandDescriptor)
  (guildID : Value) (response : Json)
  : Completion (CommandsCall * Completion ApplicationCommand) :=
  data ← transformCommand command;
  Normal (commands_post (ic_clientID this) (guild_of guildID) data,
          ApplicationCommand_new this response guildID).

End Commands.

Arguments fetchCommands {_} _ _ _ _.
Arguments setCommands {_ _ _} _ _ _ _ _.
Arguments createCommand {_ _ _} _ _ _ _ _.

(** ** A recording runtime

    To run the model, entities are values that record the call which
    produced them, and the platform functions are small stand-ins. *)

Inductive UserRecord :=
| users_added (raw : option Json) (cache : bool)
| user_constructed (raw : option Json).

Inductive MemberRecord :=
| members_added (raw : RawMember) (cache : bool).

Inductive ChannelRecord :=
| channels_added (raw : option Json) (cache : bool)
| channel_created (raw : option Json) (in_guild : bool).

Inductive RoleRecord :=
| roles_added (raw : option Json) (cache : bool)
| role_constructed (raw : option Json).

Definition recording : Structures := {|
  User := UserRecord;
  GuildMember := MemberRecord;
  Channel := ChannelRecord;
  Role := RoleRecord;
|}.

(** A client with and without entity caches, and a guild. *)
Definition caching_client : @Client recording :=
  @Build_Client recording
    (Some (fun raw cache => Normal (users_added raw cache)))
    (Some (fun raw cache => Normal (channels_added raw cache))).

Definition bare_client : @Client recording := @Build_Client recording None None.

Definition a_guild : @Guild recording :=
  @Build_Guild recording
    (fun raw cache => Normal (Some (members_added raw cache)))
    (fun raw cache => Normal (roles_added raw cache)).

(** The stand-in verifier accepts a signature that repeats the key; the
    stand-in parser reads every body as the payload [parsed]. *)
Definition recording_runtime (with_guild : bool) (parsed : Payload) : @Runtime recording :=
  @Build_Runtime recording wire
    (fun _ raw => Normal (user_constructed raw))
    (fun _ raw g => Normal (channel_created raw (bool_decide (is_Some g))))
    (fun _ raw _ => Normal (role_constructed raw))
    (fun c data =>
       Normal (@Build_Interaction recording c (if with_guild then Some a_guild else None)
                 (p_id data) (text "app") (p_token data)))
    String.list_byte_of_string
    String.list_byte_of_string
    String.string_of_list_byte
    (fun _ => Normal parsed)
    (fun r => match r with
              | None => None
              | Some e => Some (ToString (env_type e))
              end)
    (fun signature _ key =>
       Normal (bool_decide (Some (String.string_of_list_byte signature)
                            = String.string_of_list_byte <$> key))).

(** Sample payloads. *)
Definition ping : Payload :=
  {| p_id := text "1"; p_type := number 1; p_token := text "tok"; p_data := None |}.

Definition command (options : option (list RawOption)) (resolved : option ResolvedData)
  : Payload :=
  {| p_id := text "2"; p_type := number 2; p_token := text "tok";
     p_data := Some {| cd_id := text "7"; cd_name := text "cmd";
                       cd_options := options; cd_resolved := resolved |} |}.

Definition alice : Json := JObject [("id", JValue (text "42"))].
Definition alice_member : RawMember :=
  {| rm_fields := [("nick", JValue (text "al"))]; rm_user := None |}.

Definition tables : ResolvedData := {|
  rd_users := Some {[ "42" := alice ]};
  rd_members := Some {[ "42" := alice_member ]};
  rd_channels := Some ∅;
  rd_roles := Some ∅;
|}.

Definition user_option (value : string) : RawOption :=
  RawOpt (number 6) (text "who") (text value) None.

(** A subcommand group holding a subcommand holding a string and an
    integer. *)
Definition three_levels : list RawOption :=
  [RawOpt (number 2) (text "group") undefined
     (Some [RawOpt (number 1) (text "sub") undefined
              (Some [RawOpt (number 3) (text "first") (text "a") None;
                     RawOpt (number 4) (text "second") (number 5) None])])].

Definition hello : ResolvedMessage :=
  {| msg_data := JObject [("content", JValue (text "hi!"))]; msg_files := [] |}.
Definition later : ResolvedMessage :=
  {| msg_data := JObject [("content", JValue (text "wow that took long"))]; msg_files := [] |}.

Definition no_effects (r : option Envelope) : list (@Effect recording) := [].

Definition channel_option (value : string) : RawOption :=
  RawOpt (number 7) (text "where") (text value) None.

(** The runtime of a webhook-only client, and of a client in a guild. *)
Definition standalone : @Runtime recording := recording_runtime false ping.
Definition guilded : @Runtime recording := recording_runtime true ping.

(** An interaction of a caching client outside any guild, and one in a
    guild. *)
Definition direct : @Interaction recording :=
  @Build_Interaction recording caching_client None (text "2") (text "app") (text "tok").

Definition in_guild : @Interaction recording :=
  @Build_Interaction recording caching_client (Some a_guild) (text "2") (text "app")
    (text "tok").

Definition greeting : @CommandInteraction recording :=
  @Build_CommandInteraction recording direct (text "7") (text "cmd") [].

(** The interaction that [three_levels] resolves to for a client without
    caches. *)
Definition nested : @CommandInteraction recording :=
  @Build_CommandInteraction recording
    (@Build_Interaction recording bare_client None (text "2") (text "app") (text "tok"))
    (text "7") (text "cmd")
    [@NodeOptions recording (text "group") (text "SUB_COMMAND_GROUP")
       [@NodeOptions recording (text "sub") (text "SUB_COMMAND")
          [@NodeValue recording (text "first") (text "STRING") (text "a");
           @NodeValue recording (text "second") (text "INTEGER") (number 5)]]].

(** A payload of a type that the dispatcher does not know, and an option of
    a type that the resolver does not know. *)
Definition unknown : Payload :=
  {| p_id := text "3"; p_type := number 9; p_token := text "tok"; p_data := None |}.

Definition future_option : RawOption :=
  RawOpt (number 9) (text "future") (text "x")
    (Some [RawOpt (number 3) (text "inner") (text "y") None]).

Definition key : list Byte.byte := String.list_byte_of_string "key".

(** A request signed with [signature] over an empty body. *)
Definition request (signature : string) : Request := {|
  req_get := fun name =>
    if bool_decide (name = "x-signature-timestamp") then Some "1700000000"
    else if bool_decide (name = "x-signature-ed25519") then Some signature
    else None;
  req_chunks := [];
|}.

(** Sample command descriptors, and a client whose [clientID] is not its
    [applicationID]. *)
Definition echo : CommandDescriptor := {|
  cmd_rest := [("name", JValue (text "echo"))];
  cmd_options :=
    Some [Descriptor (text "SUB_COMMAND") [("name", JValue (text "loud"))]
            (Some [Descriptor (text "STRING") [("name", JValue (text "what"))] None]);
          Descriptor (text "SUB_COMMAND") [("name", JValue (text "quiet"))] None];
|}.

Definition optionless : CommandDescriptor := {|
  cmd_rest := [("name", JValue (text "ping"))];
  cmd_options := None;
|}.

Definition web_client : InteractionClient :=
  {| ic_applicationID := text "app"; ic_clientID := undefined |}.

Definition as_received (this : InteractionClient) (c : Json) (guildID : Value)
  : Completion (Json * Value) := Normal (c, guildID).

(** Runtimes whose parser reads every body as a command, as a payload of
    unknown type, and as a command without [options]; and one whose parser
    rejects the empty body as [JSON.parse] does. *)
Definition commanded : @Runtime recording :=
  recording_runtime false (command (Some three_levels) None).
Definition puzzled : @Runtime recording := recording_runtime false unknown.
Definition broken : @Runtime recording := recording_runtime false (command None None).

Definition strict : @Runtime recording :=
  @Build_Runtime recording wire
    (@User_new recording standalone) (@Channel_create recording standalone)
    (@Role_new recording standalone) (@Interaction_new recording standalone)
    String.list_byte_of_string String.list_byte_of_string String.string_of_list_byte
    (fun body => if bool_decide (body = "")
                 then Throw (SyntaxError "Unexpected end of JSON input")
                 else Normal ping)
    (@JSON_stringify recording standalone)
    (@sodium_verify recording standalone).


(** The interactions of the recording runtime: with or without the user
    manager, the channel manager and the guild. *)
Definition recorder (users channels in_a_guild : bool) : @Interaction recording :=
  @Build_Interaction recording
    (@Build_Client recording
       (if users then @client_users recording caching_client else None)
       (if channels then @client_channels recording caching_client else None))
    (if in_a_guild then Some a_guild else None)
    (text "2") (text "app") (text "tok").

(** A request without headers, and a tree whose subcommand has no
    [options]. *)
Definition unsigned : Request := {| req_get := fun _ => None; req_chunks := [] |}.

Definition bare_tree : list RawOption :=
  [RawOpt (number 2) (text "group") undefined
     (Some [RawOpt (number 3) (text "first") (text "a") None;
            RawOpt (number 1) (text "sub") undefined None])].

(** * Properties *)

Section Properties.

Context `{Structures} `{!Runtime}.

Implicit Types (this interaction : CommandInteraction) (k : option Envelope -> list Effect).
Implicit Types (w : World) (schedule : list Event) (resolved : ResolvedMessage).

(** ** The response race *)

Lemma run_cons this k ev schedule w :
  run this k (ev :: schedule) w = run this k schedule (step this k ev w).
Proof. reflexivity. Qed.

Lemma run_app this k s1 s2 w :
  run this k (s1 ++ s2) w = run this k s2 (run this k s1 w).
Proof. unfold run. apply foldl_app. Qed.

(** The race after one turn, apart from the effects. *)
Lemma race_step this k ev w :
  race (step this k ev w) =
  match ev with
  | timer_fired => timer_callback (race w)
  | reply_resolved resolved => (syncHandle_reply resolved (race w)).2
  end.
Proof.
  unfold step, reply. destruct ev as [|resolved]; simpl.
  - by destruct (directPromise (race w)).
  - destruct (syncHandle_reply resolved (race w)) as [[] r1] eqn:Hr; simpl;
      by destruct (directPromise (race w)), (directPromise r1).
Qed.

Ltac race_cases :=
  rewrite ?race_step;
  unfold syncHandle_reply, timer_callback, resolve in *; simpl in *;
  repeat (case_match; simpl in *; simplify_eq); eauto.

(** A settled promise keeps its value. *)
Lemma step_settled this k ev w e :
  directPromise (race w) = Some e ->
  directPromise (race (step this k ev w)) = Some e.
Proof. intros Hs. race_cases. Qed.

Lemma run_settled this k schedule w e :
  directPromise (race w) = Some e ->
  directPromise (race (run this k schedule w)) = Some e.
Proof.
  revert w. induction schedule as [|ev schedule IH]; intros w Hs; [done|].
  rewrite run_cons. apply IH. by apply step_settled.
Qed.

(** The flag is never cleared. *)
Lemma step_timedOut this k ev w :
  timedOut (race w) = true -> timedOut (race (step this k ev w)) = true.
Proof. intros Ht. race_cases. Qed.

Lemma run_timedOut this k schedule w :
  timedOut (race w) = true -> timedOut (race (run this k schedule w)) = true.
Proof.
  revert w. induction schedule as [|ev schedule IH]; intros w Ht; [done|].
  rewrite run_cons. apply IH. by apply step_timedOut.
Qed.

Lemma step_coherent this k ev w :
  coherent (race w) -> coherent (race (step this k ev w)).
Proof. unfold coherent. intros Hc. race_cases. Qed.

Lemma run_coherent this k schedule w :
  coherent (race w) -> coherent (race (run this k schedule w)).
Proof.
  revert w. induction schedule as [|ev schedule IH]; intros w Hc; [done|].
  rewrite run_cons. apply IH. by apply step_coherent.
Qed.

Lemma suspended_coherent data interaction : coherent (race (suspended data interaction)).
Proof. by unfold coherent. Qed.

(** From a coherent race every turn of the scheduler leaves the promise
    settled, so [handle] returns as soon as the timer has fired. *)
Lemma step_settles this k ev w :
  coherent (race w) -> is_Some (directPromise (race (step this k ev w))).
Proof. unfold coherent. intros Hc. race_cases. Qed.

(** A turn on a settled promise adds at most the followup of a late reply,
    and never resumes the awaiting code again. *)
Lemma step_effects_settled this k ev w e :
  directPromise (race w) = Some e ->
  effects (step this k ev w) =
  effects w ++ match ev with
               | timer_fired => []
               | reply_resolved resolved =>
                   if timedOut (race w) then [followup this resolved] else []
               end.
Proof.
  intros Hs. unfold step, reply, syncHandle_reply, timer_callback, resolve.
  destruct ev as [|resolved]; simpl; rewrite ?Hs; simpl.
  - by rewrite app_nil_r.
  - destruct (timedOut (race w)); simpl; rewrite ?Hs; simpl; by rewrite ?app_nil_r.
Qed.

(** The race after the timer has fired any number of times and nothing
    else has happened. *)
Lemma race_after_timers this k data (n : nat) :
  race (run this k (replicate n timer_fired) (suspended data this)) =
  match n with
  | O => {| timedOut := false; directPromise := None |}
  | S _ => {| timedOut := true; directPromise := Some deferred |}
  end.
Proof.
  destruct n as [|n]; [done|].
  change (replicate (S n) timer_fired) with (timer_fired :: replicate n timer_fired).
  rewrite run_cons.
  generalize (eq_refl (race (step this k timer_fired (suspended data this)))).
  generalize (step this k timer_fired (suspended data this)) at 1 3.
  rewrite race_step. simpl. unfold timer_callback, resolve. simpl.
  induction n as [|n IH]; intros w Hw; [done|].
  change (replicate (S n) timer_fired) with (timer_fired :: replicate n timer_fired).
  rewrite run_cons. apply IH. rewrite race_step, Hw. reflexivity.
Qed.

(** C1, as amended.  Two calls of [syncHandle.reply] on the race of one
    interaction, the first made after the timer has fired [timers] times
    and before any other reply, the second after any further turns of the
    scheduler: the first returns [true] exactly when the promise was still
    pending, and then the promise holds its envelope for good; the second
    returns [false] whenever the timer has fired by then, which is the case
    whenever the first returned [false]; and [reply] sends the followup
    POST for the second exactly when it returned [false]. *)
Theorem attemptReply_twice this k data (timers : nat) (r1 r2 : ResolvedMessage)
    (between : list Event) :
  let w := run this k (replicate timers timer_fired) (suspended data this) in
  let w1 := step this k (reply_resolved r1) w in
  let w2 := run this k between w1 in
  let first := (syncHandle_reply r1 (race w)).1 in
  let second := (syncHandle_reply r2 (race w2)).1 in
  (first = true <-> directPromise (race w) = None) /\
  (first = true -> directPromise (race w2) = Some (immediate r1)) /\
  (timedOut (race w2) = true -> second = false) /\
  (first = false -> second = false) /\
  effects (step this k (reply_resolved r2) w2) =
    effects w2 ++ (if second then [] else [followup this r2]).
Proof.
  intros w w1 w2 first second.
  assert (Hw : race w = match timers with
                        | O => {| timedOut := false; directPromise := None |}
                        | S _ => {| timedOut := true; directPromise := Some deferred |}
                        end) by apply race_after_timers.
  assert (Hc : coherent (race w)).
  { apply run_coherent, suspended_coherent. }
  assert (Hsecond : second = negb (timedOut (race w2))).
  { unfold second, syncHandle_reply. by destruct (timedOut (race w2)). }
  split; [|split; [|split; [|split]]].
  - unfold first, syncHandle_reply. rewrite Hw. destruct timers; simpl; split; done.
  - intros Hfirst. apply run_settled. unfold w1. rewrite race_step.
    revert Hfirst. unfold first, syncHandle_reply. rewrite Hw.
    destruct timers; simpl; done.
  - rewrite Hsecond. by intros ->.
  - intros Hfirst. rewrite Hsecond.
    assert (Ht : timedOut (race w) = true).
    { revert Hfirst. unfold first, syncHandle_reply. by destruct (timedOut (race w)). }
    unfold w2, w1. rewrite run_timedOut; [done|]. by apply step_timedOut.
  - destruct (step_settles this k (reply_resolved r1) w Hc) as [e He].
    rewrite (step_effects_settled this k (reply_resolved r2) w2 e).
    + rewrite Hsecond. by destruct (timedOut (race w2)).
    + by apply run_settled.
Qed.

(** The world in which [handle] leaves a command payload that constructs. *)
Lemma handle_command c data k schedule interaction :
  p_type data <> prop (InteractionType K) "PING" ->
  p_type data = prop (InteractionType K) "APPLICATION_COMMAND" ->
  CommandInteraction_new c data = Normal interaction ->
  handle c data k schedule =
  let w := run interaction k schedule (suspended data interaction) in
  (effects w, match directPromise (race w) with
              | None => Pending
              | Some r => Fulfilled (Some r)
              end).
Proof.
  intros Hping Hcmd Hnew. unfold handle, strict_eq.
  rewrite bool_decide_eq_false_2 by done.
  rewrite bool_decide_eq_true_2 by done.
  by rewrite Hnew.
Qed.

(** [handle] returns for every schedule in which the timer fires. *)
Lemma handle_returns c data k schedule interaction :
  p_type data <> prop (InteractionType K) "PING" ->
  p_type data = prop (InteractionType K) "APPLICATION_COMMAND" ->
  CommandInteraction_new c data = Normal interaction ->
  schedule <> [] ->
  exists r, (handle c data k schedule).2 = Fulfilled (Some r).
Proof.
  intros Hping Hcmd Hnew Hne. rewrite (handle_command _ _ _ _ interaction) by done.
  destruct schedule as [|ev schedule]; [done|]. cbv zeta. rewrite run_cons.
  destruct (step_settles interaction k ev (suspended data interaction)
              (suspended_coherent _ _)) as [e He].
  rewrite (run_settled _ _ _ _ e He). simpl. eauto.
Qed.

(** A reply on a pending promise wins: it settles the promise with its
    envelope and the only effects are those of the awaiting code. *)
Lemma step_reply_pending this k w resolved :
  coherent (race w) ->
  directPromise (race w) = None ->
  effects (step this k (reply_resolved resolved) w)
    = effects w ++ k (Some (immediate resolved)) /\
  directPromise (race (step this k (reply_resolved resolved) w))
    = Some (immediate resolved).
Proof.
  intros Hc Hpending.
  assert (Ht : timedOut (race w) = false).
  { destruct (timedOut (race w)) eqn:Ht; [|done].
    destruct (Hc Ht) as [e He]. congruence. }
  split.
  - unfold step, reply, syncHandle_reply, resolve. rewrite Ht. cbn.
    rewrite !Hpending. reflexivity.
  - rewrite race_step. unfold syncHandle_reply, resolve.
    rewrite Ht. simpl. by rewrite Hpending.
Qed.

(** C2.  A command payload whose handler's reply reaches [syncHandle.reply]
    while the promise is still pending: that turn adds no effect but the
    resumption of the code that awaits [handle] (so no followup POST), and
    [handle] returns the envelope of type [CHANNEL_MESSAGE_WITH_SOURCE]
    that carries the reply's data, whatever happens afterwards. *)
Theorem reply_while_pending c data k interaction (before after : list Event) resolved :
  p_type data <> prop (InteractionType K) "PING" ->
  p_type data = prop (InteractionType K) "APPLICATION_COMMAND" ->
  CommandInteraction_new c data = Normal interaction ->
  let w := run interaction k before (suspended data interaction) in
  directPromise (race w) = None ->
  let w1 := step interaction k (reply_resolved resolved) w in
  effects w1 = effects w ++ k (Some (immediate resolved)) /\
  handle c data k (before ++ reply_resolved resolved :: after) =
    (effects (run interaction k after w1),
     Fulfilled (Some {| env_type := prop (InteractionResponseType K) "CHANNEL_MESSAGE_WITH_SOURCE";
                        env_data := Some (msg_data resolved) |})).
Proof.
  intros Hping Hcmd Hnew w Hpending w1.
  assert (Hc : coherent (race w)) by apply run_coherent, suspended_coherent.
  destruct (step_reply_pending interaction k w resolved Hc Hpending) as [Heff Hp1].
  split; [done|].
  rewrite (handle_command _ _ _ _ interaction) by done. cbv zeta.
  rewrite run_app, run_cons. fold w. fold w1.
  by rewrite (run_settled _ _ _ _ _ Hp1).
Qed.

(** C3.  A command payload whose handler replies only after the timer has
    fired: when the timer fires [handle] returns the envelope of type
    [DEFERRED_CHANNEL_MESSAGE_WITH_SOURCE] without data, and the reply that
    follows leaves that result alone and adds exactly one effect, the POST
    to the webhook of the application and token with [wait] set, carrying
    the data and files of the reply. *)
Theorem reply_after_timeout c data k interaction resolved :
  p_type data <> prop (InteractionType K) "PING" ->
  p_type data = prop (InteractionType K) "APPLICATION_COMMAND" ->
  CommandInteraction_new c data = Normal interaction ->
  let envelope :=
    {| env_type := prop (InteractionResponseType K) "DEFERRED_CHANNEL_MESSAGE_WITH_SOURCE";
       env_data := None |} in
  handle c data k [timer_fired] =
    (effects (suspended data interaction) ++ k (Some envelope),
     Fulfilled (Some envelope)) /\
  handle c data k [timer_fired; reply_resolved resolved] =
    ((effects (suspended data interaction) ++ k (Some envelope)) ++
       [api (webhooks_post (applicationID (base interaction)) (token (base interaction))
               false (msg_data resolved) (msg_files resolved) true)],
     Fulfilled (Some envelope)).
Proof.
  intros Hping Hcmd Hnew envelope.
  rewrite !(handle_command _ _ _ _ interaction) by done.
  split; reflexivity.
Qed.

(** ** Option resolution *)

(** Induction on raw options through the [options] array. *)
Lemma RawOption_nested_ind (P : RawOption -> Prop) :
  (forall type name value, P (RawOpt type name value None)) ->
  (forall type name value l, Forall P l -> P (RawOpt type name value (Some l))) ->
  forall o, P o.
Proof.
  intros Hleaf Hnode. fix IH 1. intros [type name value [l|]].
  - apply Hnode. revert l. fix IHl 1. intros [|x l].
    + constructor.
    + constructor; [apply IH | apply IHl].
  - apply Hleaf.
Qed.

Lemma map_unfold (this : Interaction) type name value options data :
  map this (RawOpt type name value options) data =
  match option_case type with
  | CaseSubCommand | CaseSubCommandGroup =>
      match options with
      | None => Throw (TypeError "Cannot read property of undefined: map")
      | Some l =>
          match Array_map (map this) l data with
          | Throw e => Throw e
          | Normal (ns, data1) =>
              Normal (NodeOptions name (option_type_name type) ns, data1)
          end
      end
  | CaseString | CaseInteger | CaseBoolean =>
      Normal (NodeValue name (option_type_name type) value, data)
  | CaseUser => map_user this (RawOpt type name value options) data
  | CaseChannel => map_channel this (RawOpt type name value options) data
  | CaseRole => map_role this (RawOpt type name value options) data
  | CaseDefault => Normal (NodeRaw (RawOpt type name value options), data)
  end.
Proof. reflexivity. Qed.

Lemma Array_map_cons {A B S : Type} (f : A -> S -> Completion (B * S)) x xs s :
  Array_map f (x :: xs) s =
  match f x s with
  | Throw e => Throw e
  | Normal (y, s1) =>
      match Array_map f xs s1 with
      | Throw e => Throw e
      | Normal (ys, s2) => Normal (y :: ys, s2)
      end
  end.
Proof. reflexivity. Qed.



(** The reference cases return a node of their own kind under the name of
    the option, when they return. *)
Ltac unfold_binds :=
  unfold mbind, Completion_bind, resolved_of, entry, member_of in *.









(** C8.  An option whose type is none of the eight recognised codes is
    returned as it is, and nothing is thrown. *)
Theorem unrecognized_option_passes_through (this : Interaction) (o : RawOption) data :
  Forall (fun name => o_type o <> prop (ApplicationCommandOptionType K) name)
    ["SUB_COMMAND"; "SUB_COMMAND_GROUP"; "STRING"; "INTEGER"; "BOOLEAN";
     "USER"; "CHANNEL"; "ROLE"] ->
  map this o data = Normal (NodeRaw o, data).
Proof.
  intros Hnone. destruct o as [type name value options]. simpl in Hnone.
  rewrite map_unfold.
  assert (Hcase : option_case type = CaseDefault).
  { unfold option_case, option_code, strict_eq.
    repeat (apply Forall_cons in Hnone as [Hne Hnone];
            rewrite (bool_decide_eq_false_2 _ Hne); clear Hne).
    reflexivity. }
  by rewrite Hcase.
Qed.

(** C5, as amended.  A user option whose value keys a user payload and a
    member payload: the user of the node is resolved from the user payload,
    and the member of the node is what the member manager of the guild
    returns for the member payload whose [user] has been set to that same
    user payload; without a guild the member of the node is [null].  The
    member payload is also left so merged in [data]. *)
Theorem user_option_merges_user (this : Interaction) (o : RawOption) data cd rd
    users members rawUser rawMember :
  option_case (o_type o) = CaseUser ->
  p_data data = Some cd ->
  cd_resolved cd = Some rd ->
  rd_users rd = Some users ->
  rd_members rd = Some members ->
  users !! ToString (o_value o) = Some rawUser ->
  members !! ToString (o_value o) = Some rawMember ->
  let merged := {| rm_fields := rm_fields rawMember; rm_user := Some rawUser |} in
  map this o data =
    (user ← match client_users (client this) with
            | Some add => add (Some rawUser) false
            | None => User_new (client this) (Some rawUser)
            end;
     member ← match guild this with
              | Some g => members_add g merged false
              | None => Normal None
              end;
     Normal (NodeUser (o_name o) (option_type_name (o_type o)) user member,
             store_member (o_value o) merged data)).
Proof.
  intros Hcase Hcd Hrd Hu Hm HrawUser HrawMember merged.
  destruct o as [type name value options]. rewrite map_unfold.
  simpl in Hcase, HrawUser, HrawMember |- *.
  rewrite Hcase. unfold map_user. unfold_binds. simpl.
  repeat (progress (rewrite ?Hcd, ?Hrd, ?Hu, ?Hm, ?HrawUser, ?HrawMember; simpl)).
  reflexivity.
Qed.

(** Without [data.data.resolved] a reference option makes resolution
    throw. *)
Lemma reference_option_without_resolved (this : Interaction) (o : RawOption) data cd :
  p_data data = Some cd ->
  cd_resolved cd = None ->
  option_case (o_type o) = CaseUser \/ option_case (o_type o) = CaseChannel \/
  option_case (o_type o) = CaseRole ->
  map this o data = Throw (TypeError "Cannot read property of undefined: resolved").
Proof.
  intros Hcd Hnone Hcase. destruct o as [type name value options]. rewrite map_unfold.
  simpl in Hcase.
  destruct Hcase as [Hcase|[Hcase|Hcase]]; rewrite Hcase;
    unfold map_user, map_channel, map_role; unfold_binds;
    rewrite Hcd; simpl; by rewrite Hnone.
Qed.

(** C6, as amended.  A reference option whose value is an identifier, in a
    payload that has [resolved] and in it the tables that the case reads
    ([users] and [members] for a user, [channels] for a channel, [roles]
    for a role), is resolved from the entry of its table under that
    identifier, which is [undefined] when the payload is missing; the
    resolver does not look at it.  The entry goes to the manager
    ([client.users], [client.channels], [guild.roles]) when there is one,
    and a standalone entity is constructed from it only when there is
    none; the outcome is what that call yields. *)
Theorem reference_option_resolution (this : Interaction) (o : RawOption) data cd rd :
  p_data data = Some cd ->
  cd_resolved cd = Some rd ->
  snowflake (o_value o) = true ->
  (option_case (o_type o) = CaseUser ->
   forall users members, rd_users rd = Some users -> rd_members rd = Some members ->
   let rawUser := users !! ToString (o_value o) in
   let merged := assign_user rawUser <$> members !! ToString (o_value o) in
   map this o data =
     (user ← match client_users (client this) with
             | Some add => add rawUser false
             | None => User_new (client this) rawUser
             end;
      member ← match merged, guild this with
               | Some m, Some g => members_add g m false
               | _, _ => Normal None
               end;
      Normal (NodeUser (o_name o) (option_type_name (o_type o)) user member,
              from_option (fun m => store_member (o_value o) m data) data merged))) /\
  (option_case (o_type o) = CaseChannel ->
   forall channels, rd_channels rd = Some channels ->
   let raw := channels !! ToString (o_value o) in
   map this o data =
     (channel ← match client_channels (client this) with
                | Some add => add raw false
                | None => Channel_create (client this) raw (guild this)
                end;
      Normal (NodeChannel (o_name o) (option_type_name (o_type o)) channel, data))) /\
  (option_case (o_type o) = CaseRole ->
   forall roles, rd_roles rd = Some roles ->
   let raw := roles !! ToString (o_value o) in
   map this o data =
     (role ← match guild this with
             | Some g => roles_add g raw false
             | None => Role_new (client this) raw None
             end;
      Normal (NodeRole (o_name o) (option_type_name (o_type o)) role, data))).
Proof.
  intros Hcd Hrd _. destruct o as [type name value options]. rewrite map_unfold.
  split; [|split].
  - intros Hcase users members Hu Hm rawUser merged. subst rawUser merged.
    simpl in Hcase |- *. rewrite Hcase. unfold map_user. unfold_binds. simpl.
    repeat (progress (rewrite ?Hcd, ?Hrd, ?Hu, ?Hm; simpl)).
    destruct (members !! ToString value), (guild this); reflexivity.
  - intros Hcase channels Hch raw. subst raw.
    simpl in Hcase |- *. rewrite Hcase. unfold map_channel. unfold_binds. simpl.
    repeat (progress (rewrite ?Hcd, ?Hrd, ?Hch; simpl)). reflexivity.
  - intros Hcase roles Hro raw. subst raw.
    simpl in Hcase |- *. rewrite Hcase. unfold map_role. unfold_binds. simpl.
    repeat (progress (rewrite ?Hcd, ?Hrd, ?Hro; simpl)). reflexivity.
Qed.

(** C10.  A command payload whose [data] has no [options]: the constructor
    throws when it reads [map] of [undefined], so [handle] is rejected
    after it has armed the timer and before anything is emitted. *)
Theorem command_without_options_is_rejected (c : Client) (data : Payload) cd k schedule :
  p_type data <> prop (InteractionType K) "PING" ->
  p_type data = prop (InteractionType K) "APPLICATION_COMMAND" ->
  p_data data = Some cd ->
  cd_options cd = None ->
  (exists e, handle c data k schedule = ([invoked data; setTimeout 250], Rejected e)) /\
  (forall this : Interaction, Interaction_new c data = Normal this ->
     handle c data k schedule =
       ([invoked data; setTimeout 250],
        Rejected (TypeError "Cannot read property of undefined: map"))).
Proof.
  intros Hping Hcmd Hcd Hopts.
  assert (Hnew : CommandInteraction_new c data =
                 match Interaction_new c data with
                 | Normal _ => Throw (TypeError "Cannot read property of undefined: map")
                 | Throw e => Throw e
                 end).
  { unfold CommandInteraction_new. unfold_binds. rewrite Hcd, Hopts.
    by destruct (Interaction_new c data). }
  unfold handle, strict_eq.
  rewrite bool_decide_eq_false_2 by done.
  rewrite bool_decide_eq_true_2 by done.
  rewrite Hnew. split.
  - destruct (Interaction_new c data); eauto.
  - by intros this ->.
Qed.

(** ** The transports *)



(** C9.  A payload of neither known type that arrives by the gateway:
    [handle] emits the debug line and returns [undefined], and
    [handleFromGateway] still posts to the callback route of the interaction,
    with [undefined] as [data] and [wait] set. *)
Theorem gateway_posts_absent_result (c : Client) (data : Payload) schedule :
  p_type data <> prop (InteractionType K) "PING" ->
  p_type data <> prop (InteractionType K) "APPLICATION_COMMAND" ->
  (forall k, (handle c data k schedule).2 = Fulfilled None) /\
  handleFromGateway c data schedule =
    ([invoked data;
      emit_text (text "debug") ("[INTERACTION] unknown type " +:+ ToString (p_type data));
      api (interactions_callback_post (p_id data) (p_token data) None true)],
     Fulfilled ()).
Proof.
  intros Hping Hcmd. unfold handleFromGateway, handle, strict_eq.
  rewrite !bool_decide_eq_false_2 by done. by split.
Qed.

(** * Further properties *)

(** ** The race over a whole schedule *)

(** Once the promise is settled, a schedule only adds the followups of
    the replies that come after the timer. *)
Lemma run_effects_settled this k schedule w e :
  directPromise (race w) = Some e ->
  effects (run this k schedule w) =
  effects w ++ List.map (followup this) (late_replies (timedOut (race w)) schedule).
Proof.
  revert w. induction schedule as [|ev schedule IH]; intros w Hs.
  - simpl. by rewrite app_nil_r.
  - rewrite run_cons, (IH _ (step_settled this k ev w e Hs)).
    rewrite (step_effects_settled this k ev w e Hs), race_step.
    destruct ev as [|resolved]; simpl.
    + unfold timer_callback, resolve. simpl. by rewrite app_nil_r.
    + unfold syncHandle_reply.
      destruct (timedOut (race w)) eqn:Ht; simpl; rewrite ?Ht.
      * by rewrite <- app_assoc.
      * by rewrite app_nil_r.
Qed.

(** The first turn from the suspended world. *)
Lemma first_step this k data ev :
  let w := step this k ev (suspended data this) in
  race w = {| timedOut := match ev with timer_fired => true | _ => false end;
              directPromise := Some (outcome ev) |} /\
  effects w = effects (suspended data this) ++ k (Some (outcome ev)).
Proof. destruct ev; split; reflexivity. Qed.

(** X1.  For a command that constructs, the first event of the schedule
    alone decides the envelope that [handle] returns; the awaiting code
    resumes once, right then; and the only further effects are one
    followup POST for each reply that comes after the timer, in order.  A
    reply that comes after the winning reply and before the timer leaves
    nothing. *)
Theorem handle_closed_form (c : Client) (data : Payload) k interaction ev rest :
  p_type data <> prop (InteractionType K) "PING" ->
  p_type data = prop (InteractionType K) "APPLICATION_COMMAND" ->
  CommandInteraction_new c data = Normal interaction ->
  handle c data k (ev :: rest) =
    (effects (suspended data interaction) ++ k (Some (outcome ev)) ++
       List.map (followup interaction) (late_replies false (ev :: rest)),
     Fulfilled (Some (outcome ev))).
Proof.
  intros Hping Hcmd Hnew.
  rewrite (handle_command _ _ _ _ interaction) by done. cbv zeta.
  rewrite run_cons.
  destruct (first_step interaction k data ev) as [Hrace Heff].
  assert (Hs : directPromise (race (step interaction k ev (suspended data interaction)))
               = Some (outcome ev)) by (by rewrite Hrace).
  rewrite (run_effects_settled _ _ _ _ _ Hs), (run_settled _ _ _ _ _ Hs).
  rewrite Heff, Hrace, <- app_assoc. by destruct ev.
Qed.

(** ** The transports over a whole schedule *)

(** What [middleware] does once the signature is accepted and the body
    parses. *)
Lemma middleware_verified publicKey (c : Client) (req : Request) schedule
    timestamp signature data :
  req_get req "x-signature-timestamp" = Some timestamp ->
  req_get req "x-signature-ed25519" = Some signature ->
  sodium_verify (Buffer_from_hex signature)
    (Buffer_from timestamp ++ concat (req_chunks req)) publicKey = Normal true ->
  JSON_parse (Buffer_toString (concat (req_chunks req))) = Normal data ->
  middleware publicKey c req schedule =
  let '(effs, r) :=
    handle c data (fun result => [res_status 200; res_end (JSON_stringify result)])
      schedule in
  (effs, match r with
         | Pending => Pending
         | Fulfilled _ => Fulfilled ()
         | Rejected e => Rejected e
         end).
Proof.
  intros Hts Hsg Hv Hparse. unfold middleware, string_arg. unfold_binds.
  by rewrite Hts, Hsg, Hv, Hparse.
Qed.

(** X2.  A verified command that constructs is answered exactly once over
    the webhook: status 200 with the envelope that the first event
    decides, written before any followup POST; later events write no
    second response. *)
Theorem middleware_answers_once publicKey (c : Client) (req : Request)
    timestamp signature data interaction ev rest :
  req_get req "x-signature-timestamp" = Some timestamp ->
  req_get req "x-signature-ed25519" = Some signature ->
  sodium_verify (Buffer_from_hex signature)
    (Buffer_from timestamp ++ concat (req_chunks req)) publicKey = Normal true ->
  JSON_parse (Buffer_toString (concat (req_chunks req))) = Normal data ->
  p_type data <> prop (InteractionType K) "PING" ->
  p_type data = prop (InteractionType K) "APPLICATION_COMMAND" ->
  CommandInteraction_new c data = Normal interaction ->
  middleware publicKey c req (ev :: rest) =
    (effects (suspended data interaction) ++
       [res_status 200; res_end (JSON_stringify (Some (outcome ev)))] ++
       List.map (followup interaction) (late_replies false (ev :: rest)),
     Fulfilled ()).
Proof.
  intros Hts Hsg Hv Hparse Hping Hcmd Hnew.
  rewrite (middleware_verified _ _ _ _ _ _ _ Hts Hsg Hv Hparse).
  rewrite (handle_command _ _ _ _ interaction) by done. cbv zeta.
  rewrite run_cons.
  destruct (first_step interaction
              (fun result => [res_status 200; res_end (JSON_stringify result)]) data ev)
    as [Hrace Heff].
  assert (Hs : directPromise (race (step interaction
                 (fun result => [res_status 200; res_end (JSON_stringify result)]) ev
                 (suspended data interaction))) = Some (outcome ev)) by (by rewrite Hrace).
  rewrite (run_effects_settled _ _ _ _ _ Hs), (run_settled _ _ _ _ _ Hs).
  rewrite Heff, Hrace, <- app_assoc. by destruct ev.
Qed.

(** X5.  A verified payload of a type that [handle] does not know is
    answered with status 200 and [JSON.stringify(undefined)] as the body,
    after the debug line. *)
Theorem middleware_answers_unknown_type publicKey (c : Client) (req : Request) schedule
    timestamp signature data :
  req_get req "x-signature-timestamp" = Some timestamp ->
  req_get req "x-signature-ed25519" = Some signature ->
  sodium_verify (Buffer_from_hex signature)
    (Buffer_from timestamp ++ concat (req_chunks req)) publicKey = Normal true ->
  JSON_parse (Buffer_toString (concat (req_chunks req))) = Normal data ->
  p_type data <> prop (InteractionType K) "PING" ->
  p_type data <> prop (InteractionType K) "APPLICATION_COMMAND" ->
  middleware publicKey c req schedule =
    ([invoked data;
      emit_text (text "debug") ("[INTERACTION] unknown type " +:+ ToString (p_type data));
      res_status 200; res_end (JSON_stringify None)],
     Fulfilled ()).
Proof.
  intros Hts Hsg Hv Hparse Hping Hcmd.
  rewrite (middleware_verified _ _ _ _ _ _ _ Hts Hsg Hv Hparse).
  unfold handle, strict_eq. by rewrite !bool_decide_eq_false_2 by done.
Qed.

(** X6.  A verified request whose body does not parse: the error of
    [JSON.parse] rejects the middleware, no response is written and
    [handle] is not entered. *)
Theorem middleware_malformed_body publicKey (c : Client) (req : Request) schedule
    timestamp signature e :
  req_get req "x-signature-timestamp" = Some timestamp ->
  req_get req "x-signature-ed25519" = Some signature ->
  sodium_verify (Buffer_from_hex signature)
    (Buffer_from timestamp ++ concat (req_chunks req)) publicKey = Normal true ->
  JSON_parse (Buffer_toString (concat (req_chunks req))) = Throw e ->
  middleware publicKey c req schedule = ([], Rejected e).
Proof.
  intros Hts Hsg Hv Hparse. unfold middleware, string_arg. unfold_binds.
  by rewrite Hts, Hsg, Hv, Hparse.
Qed.

(** X7.  A request that lacks the signature or the timestamp header is not
    answered with 401: [Buffer.from] throws a [TypeError] that rejects the
    middleware, and no response is written, whatever the body and the
    key. *)
Theorem middleware_missing_header publicKey (c : Client) (req : Request) schedule :
  req_get req "x-signature-ed25519" = None \/
  req_get req "x-signature-timestamp" = None ->
  exists msg, middleware publicKey c req schedule = ([], Rejected (TypeError msg)).
Proof.
  intros Hmissing. unfold middleware, string_arg. unfold_binds.
  destruct (req_get req "x-signature-ed25519") as [signature|] eqn:Hsg; [|by eexists].
  destruct Hmissing as [?|Hts]; [done|]. rewrite Hts. by eexists.
Qed.

(** X8.  A command whose construction throws is never acknowledged: over
    the webhook no response is written, over the gateway no callback is
    posted, and in both the error rejects the transport after the timer
    has been armed. *)
Theorem failed_construction_is_not_acknowledged publicKey (c : Client) (req : Request)
    schedule timestamp signature data e :
  p_type data <> prop (InteractionType K) "PING" ->
  p_type data = prop (InteractionType K) "APPLICATION_COMMAND" ->
  CommandInteraction_new c data = Throw e ->
  handleFromGateway c data schedule = ([invoked data; setTimeout 250], Rejected e) /\
  (req_get req "x-signature-timestamp" = Some timestamp ->
   req_get req "x-signature-ed25519" = Some signature ->
   sodium_verify (Buffer_from_hex signature)
     (Buffer_from timestamp ++ concat (req_chunks req)) publicKey = Normal true ->
   JSON_parse (Buffer_toString (concat (req_chunks req))) = Normal data ->
   middleware publicKey c req schedule = ([invoked data; setTimeout 250], Rejected e)).
Proof.
  intros Hping Hcmd Hnew.
  assert (Hh : forall k, handle c data k schedule
                         = ([invoked data; setTimeout 250], Rejected e)).
  { intros k. unfold handle, strict_eq.
    rewrite bool_decide_eq_false_2 by done.
    rewrite bool_decide_eq_true_2 by done. by rewrite Hnew. }
  split.
  - unfold handleFromGateway. by rewrite Hh.
  - intros Hts Hsg Hv Hparse.
    rewrite (middleware_verified _ _ _ _ _ _ _ Hts Hsg Hv Hparse). by rewrite Hh.
Qed.

(** X3.  Over the gateway a command that constructs is acknowledged
    exactly once: one POST to the callback route of the interaction with
    the envelope that the first event decides and [wait] set, before any
    followup POST. *)
Theorem gateway_acknowledges_once (c : Client) (data : Payload) interaction ev rest :
  p_type data <> prop (InteractionType K) "PING" ->
  p_type data = prop (InteractionType K) "APPLICATION_COMMAND" ->
  CommandInteraction_new c data = Normal interaction ->
  handleFromGateway c data (ev :: rest) =
    (effects (suspended data interaction) ++
       [api (interactions_callback_post (p_id data) (p_token data)
               (Some (outcome ev)) true)] ++
       List.map (followup interaction) (late_replies false (ev :: rest)),
     Fulfilled ()).
Proof.
  intros Hping Hcmd Hnew. unfold handleFromGateway.
  rewrite (handle_command _ _ _ _ interaction) by done. cbv zeta.
  rewrite run_cons.
  set (k := fun result : option Envelope =>
              [api (interactions_callback_post (p_id data) (p_token data) result true)]).
  destruct (first_step interaction k data ev) as [Hrace Heff].
  assert (Hs : directPromise (race (step interaction k ev (suspended data interaction)))
               = Some (outcome ev)) by (by rewrite Hrace).
  rewrite (run_effects_settled _ _ _ _ _ Hs), (run_settled _ _ _ _ _ Hs).
  rewrite Heff, Hrace, <- app_assoc. by destruct ev.
Qed.

(** ** The resolver and the payload it writes to *)

Lemma forget_store_member key (data : Payload) cd rd (members : gmap string RawMember)
    rawMember rawUser :
  p_data data = Some cd -> cd_resolved cd = Some rd -> rd_members rd = Some members ->
  members !! ToString key = Some rawMember ->
  forget_users (store_member key (assign_user rawUser rawMember) data) = forget_users data.
Proof.
  intros Hcd Hrd Hm Hk. unfold forget_users, store_member. simpl.
  rewrite Hcd. simpl. rewrite Hrd. simpl. rewrite Hm. simpl.
  rewrite fmap_insert, insert_id; [done|].
  by rewrite lookup_fmap, Hk.
Qed.

Lemma map_user_forget (this : Interaction) o data n data1 :
  map_user this o data = Normal (n, data1) -> forget_users data1 = forget_users data.
Proof.
  unfold map_user. unfold_binds. intros Hm.
  destruct (p_data data) as [cd|] eqn:Hcd; simpl in Hm; [|done].
  destruct (cd_resolved cd) as [rd|] eqn:Hrd; simpl in Hm; [|done].
  destruct (rd_users rd) as [users|] eqn:Hu; simpl in Hm; [|done].
  destruct (rd_members rd) as [members|] eqn:Hmem; simpl in Hm; [|done].
  destruct (members !! ToString (o_value o)) as [rawMember|] eqn:Hk; simpl in Hm.
  - repeat (case_match; simplify_eq); by eapply forget_store_member.
  - repeat (case_match; simplify_eq); done.
Qed.

Lemma map_forget (this : Interaction) o :
  forall data n data1, map this o data = Normal (n, data1) ->
                       forget_users data1 = forget_users data.
Proof.
  induction o as [type name value|type name value l IH] using RawOption_nested_ind;
    intros data n data1 Hm; rewrite map_unfold in Hm.
  - destruct (option_case type); simplify_eq; try done.
    + by eapply map_user_forget.
    + unfold map_channel in Hm. unfold_binds. by repeat (case_match; simplify_eq).
    + unfold map_role in Hm. unfold_binds. by repeat (case_match; simplify_eq).
  - destruct (option_case type); simplify_eq; try done.
    3: by eapply map_user_forget.
    3: unfold map_channel in Hm; unfold_binds; by repeat (case_match; simplify_eq).
    3: unfold map_role in Hm; unfold_binds; by repeat (case_match; simplify_eq).
    all: destruct (Array_map (map this) l data) as [[ns d]|] eqn:Hl; simplify_eq.
    all: clear -IH Hl; revert data ns Hl.
    all: induction IH as [|x xs Hx _ IHxs]; intros data ns Hl.
    all: try (simpl in Hl; by simplify_eq).
    all: rewrite Array_map_cons in Hl.
    all: destruct (map this x data) as [[y s1]|] eqn:Hfx; [|done].
    all: destruct (Array_map (map this) xs s1) as [[ys s2]|] eqn:Hxs; [|done].
    all: simplify_eq.
    all: rewrite (IHxs _ _ Hxs); by eapply Hx.
Qed.

Lemma Array_map_forget (this : Interaction) (raw : list RawOption) :
  forall data out data1, Array_map (map this) raw data = Normal (out, data1) ->
                         forget_users data1 = forget_users data.
Proof.
  induction raw as [|x xs IH]; intros data out data1 Hl.
  - simpl in Hl. by simplify_eq.
  - rewrite Array_map_cons in Hl.
    destruct (map this x data) as [[y s1]|] eqn:Hfx; [|done].
    destruct (Array_map (map this) xs s1) as [[ys s2]|] eqn:Hxs; [|done].
    simplify_eq. rewrite (IH _ _ _ Hxs). by eapply map_forget.
Qed.

(** X10.  Resolving an option tree writes nothing to the payload but the
    [user] of member payloads: identifiers, raw options, the user, channel
    and role tables, and the keys and other properties of every member
    payload are as they were. *)
Theorem resolution_only_assigns_member_users (this : Interaction) (raw : list RawOption)
    data out data1 :
  Array_map (map this) raw data = Normal (out, data1) ->
  forget_users data1 = forget_users data.
Proof. apply Array_map_forget. Qed.

(** What the resolver reads of two payloads that differ only in the
    [user] of member payloads. *)
Lemma resolved_of_forget (d d' : Payload) :
  forget_users d = forget_users d' ->
  match resolved_of d, resolved_of d' with
  | Normal rd, Normal rd' =>
      rd_users rd = rd_users rd' /\ rd_channels rd = rd_channels rd' /\
      rd_roles rd = rd_roles rd' /\
      match rd_members rd, rd_members rd' with
      | Some members, Some members' =>
          forall key : string, forget_user <$> members !! key = forget_user <$> members' !! key
      | None, None => True
      | _, _ => False
      end
  | Throw e, Throw e' => e = e'
  | _, _ => False
  end.
Proof.
  unfold forget_users, resolved_of. unfold_binds. intros Heq.
  injection Heq as _ _ _ Hdata.
  destruct (p_data d) as [cd|], (p_data d') as [cd'|]; simplify_eq/=; [|done].
  destruct (cd_resolved cd) as [rd|], (cd_resolved cd') as [rd'|]; simplify_eq/=; [|done].
  repeat split; try done.
  destruct (rd_members rd) as [members|], (rd_members rd') as [members'|];
    simplify_eq/=; [|done].
  intros key. rewrite <- !lookup_fmap. congruence.
Qed.

Lemma map_user_invisible (this : Interaction) o (d d' : Payload) :
  forget_users d = forget_users d' ->
  fst <$> map_user this o d = fst <$> map_user this o d'.
Proof.
  intros Heq. apply resolved_of_forget in Heq.
  unfold map_user, entry, member_of, mbind, Completion_bind.
  destruct (resolved_of d) as [rd|e], (resolved_of d') as [rd'|e']; try done;
    [|by subst].
  destruct Heq as (Hu & _ & _ & Hm). rewrite <- Hu.
  destruct (rd_users rd) as [users|]; [|done].
  destruct (rd_members rd) as [members|], (rd_members rd') as [members'|]; try done.
  specialize (Hm (ToString (o_value o))).
  destruct (members !! ToString (o_value o)) as [x|],
           (members' !! ToString (o_value o)) as [x'|]; simpl in Hm |- *;
    [|discriminate Hm|discriminate Hm|].
  - assert (Hx : assign_user (users !! ToString (o_value o)) x
                 = assign_user (users !! ToString (o_value o)) x').
    { unfold assign_user. unfold forget_user in Hm. injection Hm as Hf. by rewrite Hf. }
    rewrite Hx. by repeat case_match.
  - by repeat case_match.
Qed.

Lemma map_channel_invisible (this : Interaction) o (d d' : Payload) :
  forget_users d = forget_users d' ->
  fst <$> map_channel this o d = fst <$> map_channel this o d'.
Proof.
  intros Heq. apply resolved_of_forget in Heq.
  unfold map_channel, entry, member_of, mbind, Completion_bind.
  destruct (resolved_of d) as [rd|e], (resolved_of d') as [rd'|e']; try done;
    [|by subst].
  destruct Heq as (_ & Hc & _ & _). rewrite <- Hc. by repeat case_match.
Qed.

Lemma map_role_invisible (this : Interaction) o (d d' : Payload) :
  forget_users d = forget_users d' ->
  fst <$> map_role this o d = fst <$> map_role this o d'.
Proof.
  intros Heq. apply resolved_of_forget in Heq.
  unfold map_role, entry, member_of, mbind, Completion_bind.
  destruct (resolved_of d) as [rd|e], (resolved_of d') as [rd'|e']; try done;
    [|by subst].
  destruct Heq as (_ & _ & Hr & _). rewrite <- Hr. by repeat case_match.
Qed.

Lemma Array_map_invisible (this : Interaction) (l : list RawOption) :
  Forall (fun x => forall d d', forget_users d = forget_users d' ->
                     fst <$> map this x d = fst <$> map this x d') l ->
  forall d d', forget_users d = forget_users d' ->
    fst <$> Array_map (map this) l d = fst <$> Array_map (map this) l d'.
Proof.
  induction 1 as [|x xs Hx _ IH]; intros d d' Heq; [done|].
  rewrite !Array_map_cons. specialize (Hx d d' Heq).
  destruct (map this x d) as [[y s1]|e] eqn:Hd,
           (map this x d') as [[y' s1']|e'] eqn:Hd'; simpl in Hx;
    [injection Hx as ->|discriminate Hx|discriminate Hx|by injection Hx as ->].
  assert (Heq1 : forget_users s1 = forget_users s1').
  { rewrite (map_forget _ _ _ _ _ Hd), (map_forget _ _ _ _ _ Hd'). done. }
  specialize (IH s1 s1' Heq1).
  destruct (Array_map (map this) xs s1) as [[ys s2]|],
           (Array_map (map this) xs s1') as [[ys' s2']|]; simpl in IH |- *;
    [by injection IH as ->|discriminate IH|discriminate IH|by injection IH as ->].
Qed.

Lemma map_invisible (this : Interaction) o :
  forall d d', forget_users d = forget_users d' ->
    fst <$> map this o d = fst <$> map this o d'.
Proof.
  induction o as [type name value|type name value l IH] using RawOption_nested_ind;
    intros d d' Heq; rewrite !map_unfold.
  - destruct (option_case type); try done.
    + by apply map_user_invisible.
    + by apply map_channel_invisible.
    + by apply map_role_invisible.
  - destruct (option_case type); try done.
    3: by apply map_user_invisible.
    3: by apply map_channel_invisible.
    3: by apply map_role_invisible.
    all: pose proof (Array_map_invisible this l IH d d' Heq) as Hl.
    all: destruct (Array_map (map this) l d) as [[ns s]|],
                  (Array_map (map this) l d') as [[ns' s']|]; simpl in Hl |- *;
           [by injection Hl as ->|discriminate Hl|discriminate Hl|by injection Hl as ->].
Qed.

(** With managers and constructors that are functions of their
    arguments, every option of a list resolves to the node that it resolves
    to alone on the payload as received. *)
Lemma Array_map_resolves_alone (this : Interaction) (raw : list RawOption)
    data out data1 :
  Array_map (map this) raw data = Normal (out, data1) ->
  Forall2 (fun o n => fst <$> map this o data = Normal n) raw out.
Proof.
  assert (Hgen : forall d, forget_users d = forget_users data ->
            forall out, Array_map (map this) raw d = Normal (out, data1) ->
            Forall2 (fun o n => fst <$> map this o data = Normal n) raw out).
  { clear out. induction raw as [|x xs IH]; intros d Heq out Hl.
    - simpl in Hl. injection Hl as <- _. constructor.
    - rewrite Array_map_cons in Hl.
      destruct (map this x d) as [[y s1]|] eqn:Hfx; [|done].
      destruct (Array_map (map this) xs s1) as [[ys s2]|] eqn:Hxs; [|done].
      injection Hl as <- ->. constructor.
      + rewrite <- (map_invisible this x d data Heq), Hfx. done.
      + apply (IH s1); [|done]. by rewrite (map_forget _ _ _ _ _ Hfx). }
  intros Hl. by apply (Hgen data).
Qed.

(** A subcommand or group without [options] makes the resolver throw, at
    whatever depth it sits. *)
Lemma map_bare (this : Interaction) o :
  bare o = true -> forall data, exists e, map this o data = Throw e.
Proof.
  induction o as [type name value|type name value l IH] using RawOption_nested_ind;
    intros Hb data; rewrite map_unfold; simpl in Hb.
  - destruct (option_case type); try done; eauto.
  - destruct (option_case type); try done.
    all: assert (Hl : exists e, Array_map (map this) l data = Throw e);
      [|destruct Hl as [e ->]; eauto].
    all: revert data; induction IH as [|x xs Hx _ IHxs]; intros data; [done|].
    all: rewrite Array_map_cons; simpl in Hb.
    all: destruct (map this x data) as [[y s1]|e] eqn:Hfx; [|eauto].
    all: apply orb_prop in Hb as [Hbx|Hbxs].
    all: try (destruct (Hx Hbx data) as [e He]; congruence).
    all: destruct (IHxs Hbxs s1) as [e ->]; eauto.
Qed.

(** X9.  A command whose [data] is missing, or whose options hold a
    subcommand or group without an [options] array at any depth, is
    rejected by [handle] before the interaction is emitted; no envelope is
    produced for it. *)
Theorem command_with_bare_container_is_rejected (c : Client) (data : Payload) k schedule :
  p_type data <> prop (InteractionType K) "PING" ->
  p_type data = prop (InteractionType K) "APPLICATION_COMMAND" ->
  p_data data = None \/
  (exists cd raw, p_data data = Some cd /\ cd_options cd = Some raw /\
                  existsb bare raw = true) ->
  exists e, handle c data k schedule = ([invoked data; setTimeout 250], Rejected e).
Proof.
  intros Hping Hcmd Hbad.
  assert (Hnew : exists e, CommandInteraction_new c data = Throw e).
  { unfold CommandInteraction_new. unfold_binds.
    destruct (Interaction_new c data) as [this|e]; [|eauto].
    destruct Hbad as [->|(cd & raw & -> & -> & Hb)]; [eauto|]. simpl.
    assert (Hl : exists e, Array_map (map this) raw data = Throw e);
      [|destruct Hl as [e ->]; eauto].
    generalize data. induction raw as [|x xs IH]; intros d; [done|].
    rewrite Array_map_cons. simpl in Hb.
    destruct (map this x d) as [[y s1]|e] eqn:Hfx; [|eauto].
    apply orb_prop in Hb as [Hbx|Hbxs].
    - destruct (map_bare this x Hbx d) as [e He]. congruence.
    - destruct (IH Hbxs s1) as [e ->]. eauto. }
  destruct Hnew as [e Hnew]. exists e. unfold handle, strict_eq.
  rewrite bool_decide_eq_false_2 by done.
  rewrite bool_decide_eq_true_2 by done. by rewrite Hnew.
Qed.

(** X4.  A ping is acknowledged at once over both transports, whatever
    the schedule: the webhook answers a verified ping with status 200 and
    the stringified [{type: PONG}], the gateway posts that envelope to the
    callback route; neither arms a timer, emits, or sends a followup. *)
Theorem ping_over_transports publicKey (c : Client) (req : Request) schedule
    timestamp signature data :
  p_type data = prop (InteractionType K) "PING" ->
  let pong := {| env_type := prop (InteractionResponseType K) "PONG";
                 env_data := None |} in
  handleFromGateway c data schedule =
    ([invoked data;
      api (interactions_callback_post (p_id data) (p_token data) (Some pong) true)],
     Fulfilled ()) /\
  (req_get req "x-signature-timestamp" = Some timestamp ->
   req_get req "x-signature-ed25519" = Some signature ->
   sodium_verify (Buffer_from_hex signature)
     (Buffer_from timestamp ++ concat (req_chunks req)) publicKey = Normal true ->
   JSON_parse (Buffer_toString (concat (req_chunks req))) = Normal data ->
   middleware publicKey c req schedule =
     ([invoked data; res_status 200; res_end (JSON_stringify (Some pong))],
      Fulfilled ())).
Proof.
  intros Hping pong.
  assert (Hh : forall k, handle c data k schedule
                         = (invoked data :: k (Some pong), Fulfilled (Some pong))).
  { intros k. unfold handle, strict_eq. by rewrite bool_decide_eq_true_2 by done. }
  split.
  - unfold handleFromGateway. by rewrite Hh.
  - intros Hts Hsg Hv Hparse.
    rewrite (middleware_verified _ _ _ _ _ _ _ Hts Hsg Hv Hparse). by rewrite Hh.
Qed.

End Properties.

(** * Properties of the command endpoints *)

Section CommandProperties.

Context `{Structures} `{!Runtime}.
Variable ApplicationCommand : Type.
Variable ApplicationCommand_new :
  InteractionClient -> Json -> Value -> Completion ApplicationCommand.

Ltac unfold_completion := unfold mbind, Completion_bind, member_of in *.

Lemma OptionDescriptor_nested_ind (P : OptionDescriptor -> Prop) :
  (forall type rest, P (Descriptor type rest None)) ->
  (forall type rest l, Forall P l -> P (Descriptor type rest (Some l))) ->
  forall o, P o.
Proof.
  intros Hleaf Hnode. fix IH 1. intros [type rest [l|]].
  - apply Hnode. revert l. fix IHl 1. intros [|x l].
    + constructor.
    + constructor; [apply IH | apply IHl].
  - apply Hleaf.
Qed.

Lemma m_erase_types o : erase_types (m o) = erase_types o.
Proof.
  induction o as [type rest|type rest l IH] using OptionDescriptor_nested_ind; [done|].
  simpl. do 2 f_equal. induction IH as [|x xs Hx _ IHxs]; simpl; congruence.
Qed.

Lemma m_types_of o :
  types_of (m o) =
  List.map (fun t => prop (ApplicationCommandOptionType K) (ToString t)) (types_of o).
Proof.
  induction o as [type rest|type rest l IH] using OptionDescriptor_nested_ind; [done|].
  simpl. f_equal. induction IH as [|x xs Hx _ IHxs]; simpl; [done|].
  rewrite List.map_app. congruence.
Qed.

(** X12.  [transformCommand] throws exactly when the command itself has no
    [options]; otherwise it returns the command with nothing changed but
    the [type] of each option, at every depth and in order, each replaced
    by [ApplicationCommandOptionType[type]].  A nested option without
    [options] is no error and stays without. *)
Theorem transformCommand_changes_only_types (command : CommandDescriptor) :
  match cmd_options command with
  | None => exists msg, transformCommand command = Throw (TypeError msg)
  | Some l =>
      exists l',
        transformCommand command =
          Normal {| cmd_rest := cmd_rest command; cmd_options := Some l' |} /\
        List.map erase_types l' = List.map erase_types l /\
        concat (List.map types_of l') =
          List.map (fun t => prop (ApplicationCommandOptionType K) (ToString t))
            (concat (List.map types_of l))
  end.
Proof.
  unfold transformCommand. unfold_completion.
  destruct (cmd_options command) as [l|]; [|by eexists].
  exists (List.map m l). split; [done|]. split.
  - induction l as [|x xs IH]; simpl; [done|]. by rewrite m_erase_types, IH.
  - induction l as [|x xs IH]; simpl; [done|].
    by rewrite List.map_app, m_types_of, IH.
Qed.

Lemma transformCommand_None (command : CommandDescriptor) :
  cmd_options command = None ->
  transformCommand command = Throw (TypeError "Cannot read property of undefined: map").
Proof. intros Hx. unfold transformCommand. unfold_completion. by rewrite Hx. Qed.

Lemma transformCommand_Some (command : CommandDescriptor) l :
  cmd_options command = Some l ->
  transformCommand command =
    Normal {| cmd_rest := cmd_rest command; cmd_options := Some (List.map m l) |}.
Proof. intros Hx. unfold transformCommand. unfold_completion. by rewrite Hx. Qed.

Lemma mapM_transformCommand (commands : list CommandDescriptor) :
  (Exists (fun command => cmd_options command = None) commands ->
   exists msg, mapM transformCommand commands = Throw (TypeError msg)) /\
  (Forall (fun command => is_Some (cmd_options command)) commands ->
   exists data, mapM transformCommand commands = Normal data /\
     Forall2 (fun command d => transformCommand command = Normal d) commands data).
Proof.
  induction commands as [|x xs [IHbad IHgood]]; split.
  - by intros ?%Exists_nil.
  - intros _. exists []. by split; [|constructor].
  - intros Hbad. simpl.
    destruct (cmd_options x) as [l|] eqn:Hx.
    + rewrite (transformCommand_Some x l Hx).
      apply Exists_cons in Hbad as [Hbad|Hbad]; [congruence|].
      destruct (IHbad Hbad) as [msg ->]. by eexists.
    + rewrite (transformCommand_None x Hx). by eexists.
  - intros [[l Hx] Hgood]%Forall_cons. simpl.
    destruct (IHgood Hgood) as (data & -> & Hall).
    rewrite (transformCommand_Some x l Hx).
    eexists. split; [done|]. constructor; [|done].
    by rewrite (transformCommand_Some x l Hx).
Qed.

(** X13.  [setCommands] sends all commands or nothing: when one command
    has no [options] it throws before any request is made; otherwise it
    makes one PUT whose data are the commands transformed one by one, in
    order, on the commands of [applicationID], under the guild when
    [guildID] is truthy. *)
Theorem setCommands_all_or_nothing (this : InteractionClient)
    (commands : list CommandDescriptor) (guildID : Value) (response : list Json) :
  (Exists (fun command => cmd_options command = None) commands ->
   exists msg, setCommands ApplicationCommand_new this commands guildID response
               = Throw (TypeError msg)) /\
  (Forall (fun command => is_Some (cmd_options command)) commands ->
   exists data,
     setCommands ApplicationCommand_new this commands guildID response =
       Normal (commands_put (ic_applicationID this)
                 (if ToBoolean guildID then Some guildID else None) data,
               mapM (fun c => ApplicationCommand_new this c guildID) response) /\
     Forall2 (fun command d => transformCommand command = Normal d) commands data).
Proof.
  destruct (mapM_transformCommand commands) as [Hbad Hgood]. split.
  - intros [msg Hm]%Hbad. exists msg. unfold setCommands. unfold_completion. by rewrite Hm.
  - intros (data & Hm & Hall)%Hgood. exists data. split; [|done].
    unfold setCommands. unfold_completion. by rewrite Hm.
Qed.

(** X14.  [createCommand] addresses the application by [this.clientID],
    while [setCommands] and [fetchCommands] address it by
    [this.applicationID]: for one command and one [guildID] the three
    requests go to the same commands exactly when the two identifiers are
    equal. *)
Theorem createCommand_route (this : InteractionClient) (command : CommandDescriptor)
    (guildID : Value) (r1 : list Json) (r2 : Json) call1 k1 call2 k2 :
  setCommands ApplicationCommand_new this [command] guildID r1 = Normal (call1, k1) ->
  createCommand ApplicationCommand_new this command guildID r2 = Normal (call2, k2) ->
  route_of call1 = route_of (fetchCommands ApplicationCommand_new this guildID r1).1 /\
  (route_of call2 = route_of call1 <-> ic_clientID this = ic_applicationID this).
Proof.
  unfold setCommands, createCommand, fetchCommands. unfold_completion. simpl.
  destruct (transformCommand command) as [d|]; [|done]. simpl.
  intros [= <- _] [= <- _]. simpl. split; [done|]. split; congruence.
Qed.

End CommandProperties.

(** * Properties of the calls that the resolver makes *)

Section Recorded.

#[local] Existing Instance recording.

(** X11.  In the recording runtime a node holds the calls that produced
    its entities: which manager or constructor, on which raw payload, with
    which cache flag.  For options whose user, channel and role values are
    identifiers, every option of a list makes the calls that it makes when
    it is resolved alone on the payload as received: the assignments to
    member payloads change nothing that a later option hands over. *)
Theorem options_resolve_independently (with_guild : bool) (parsed : Payload)
    (users channels in_a_guild : bool) (raw : list RawOption) data out data1 :
  let runtime := recording_runtime with_guild parsed in
  let this := recorder users channels in_a_guild in
  forallb (@identified recording runtime) raw = true ->
  Array_map (@map recording runtime this) raw data = Normal (out, data1) ->
  Forall2 (fun o n => fst <$> @map recording runtime this o data = Normal n) raw out.
Proof.
  intros runtime this _ Hl.
  exact (@Array_map_resolves_alone recording runtime this raw data out data1 Hl).
Qed.

End Recorded.

(** * The properties on concrete payloads *)

Section Standalone.

#[local] Existing Instance recording.
#[local] Existing Instance standalone.

(** C1, as stated, fails.  Two replies before the timer fires: the second
    call returns [true] like the first, and the second reply adds no
    effect, so it is not sent as a followup either. *)
Lemma second_reply_in_window_returns_true :
  let w := suspended (command (Some []) None) greeting in
  let w1 := step greeting no_effects (reply_resolved hello) w in
  (syncHandle_reply hello (race w)).1 = true /\
  (syncHandle_reply later (race w1)).1 = true /\
  effects (step greeting no_effects (reply_resolved later) w1) = effects w /\
  directPromise (race (step greeting no_effects (reply_resolved later) w1))
    = Some (immediate hello).
Proof. repeat split. Qed.

(** C2 on a reply that arrives first, followed by the timer and a late
    reply. *)
Lemma reply_while_pending_witness :
  let data := command (Some three_levels) None in
  p_type data <> prop (InteractionType K) "PING" /\
  p_type data = prop (InteractionType K) "APPLICATION_COMMAND" /\
  CommandInteraction_new bare_client data = Normal nested /\
  directPromise (race (run nested no_effects [] (suspended data nested))) = None /\
  handle bare_client data no_effects
    ([] ++ reply_resolved hello :: [timer_fired; reply_resolved later]) =
  (effects (suspended data nested) ++
     [api (webhooks_post (text "app") (text "tok") false (msg_data later) [] true)],
   Fulfilled (Some {| env_type := number 4; env_data := Some (msg_data hello) |})).
Proof.
  intros data.
  assert (Hping : p_type data <> prop (InteractionType K) "PING")
    by (vm_compute; discriminate).
  do 4 (split; [first [exact Hping | reflexivity]|]).
  exact (proj2 (reply_while_pending bare_client data no_effects nested []
                  [timer_fired; reply_resolved later] hello Hping eq_refl eq_refl eq_refl)).
Defined.

(** C3 on a reply that arrives after the timer. *)
Lemma reply_after_timeout_witness :
  let data := command (Some three_levels) None in
  p_type data <> prop (InteractionType K) "PING" /\
  p_type data = prop (InteractionType K) "APPLICATION_COMMAND" /\
  CommandInteraction_new bare_client data = Normal nested /\
  handle bare_client data no_effects [timer_fired] =
    (effects (suspended data nested),
     Fulfilled (Some {| env_type := number 5; env_data := None |})) /\
  handle bare_client data no_effects [timer_fired; reply_resolved later] =
    (effects (suspended data nested) ++
       [api (webhooks_post (text "app") (text "tok") false (msg_data later) [] true)],
     Fulfilled (Some {| env_type := number 5; env_data := None |})).
Proof.
  intros data.
  assert (Hping : p_type data <> prop (InteractionType K) "PING")
    by (vm_compute; discriminate).
  do 3 (split; [first [exact Hping | reflexivity]|]).
  exact (reply_after_timeout bare_client data no_effects nested later
           Hping eq_refl eq_refl).
Defined.



(** C5, as stated, fails.  Outside a guild the member of the node is
    [null], although both payloads are there. *)
Lemma user_option_without_guild_has_null_member :
  fst <$> map direct (user_option "42") (command (Some [user_option "42"]) (Some tables)) =
  Normal (NodeUser (text "who") (text "USER") (users_added (Some alice) false) None).
Proof. reflexivity. Qed.

(** C6, as stated, fails.  A user or channel whose payload is missing is
    handed to the manager as [undefined] when the client has one, not
    constructed standalone; and a reference option of a payload without
    [resolved] makes resolution throw. *)
Lemma missing_payload_is_not_made_standalone :
  let data := command (Some [user_option "43"; channel_option "5"]) (Some tables) in
  tables.(rd_users) ≫= (.!! "43") = None /\
  fst <$> map direct (user_option "43") data =
    Normal (NodeUser (text "who") (text "USER") (users_added None false) None) /\
  fst <$> map direct (channel_option "5") data =
    Normal (NodeChannel (text "where") (text "CHANNEL") (channels_added None false)) /\
  map direct (user_option "43") (command (Some [user_option "43"]) None) =
    Throw (TypeError "Cannot read property of undefined: resolved").
Proof. repeat split. Qed.

(** C6 on a channel option whose payload is missing, for a client with a
    channel manager and for one without. *)
Lemma reference_option_resolution_witness :
  let data := command (Some [channel_option "5"]) (Some tables) in
  let bare := Build_Interaction bare_client None (text "2") (text "app") (text "tok") in
  p_data data = Some {| cd_id := text "7"; cd_name := text "cmd";
                        cd_options := Some [channel_option "5"];
                        cd_resolved := Some tables |} /\
  snowflake (o_value (channel_option "5")) = true /\
  option_case (o_type (channel_option "5")) = CaseChannel /\
  rd_channels tables = Some ∅ /\
  map direct (channel_option "5") data =
    Normal (NodeChannel (text "where") (text "CHANNEL") (channels_added None false), data) /\
  map bare (channel_option "5") data =
    Normal (NodeChannel (text "where") (text "CHANNEL") (channel_created None false), data).
Proof.
  intros data bare. do 4 (split; [reflexivity|]). split.
  - exact (proj1 (proj2 (reference_option_resolution direct (channel_option "5")
                           data _ tables eq_refl eq_refl eq_refl)) eq_refl ∅ eq_refl).
  - exact (proj1 (proj2 (reference_option_resolution bare (channel_option "5")
                           data _ tables eq_refl eq_refl eq_refl)) eq_refl ∅ eq_refl).
Defined.


(** C8 on an option of type 9, which keeps even its own [options]. *)
Lemma unrecognized_option_passes_through_witness :
  let data := command (Some [future_option]) None in
  Forall (fun name => o_type future_option <> prop (ApplicationCommandOptionType K) name)
    ["SUB_COMMAND"; "SUB_COMMAND_GROUP"; "STRING"; "INTEGER"; "BOOLEAN";
     "USER"; "CHANNEL"; "ROLE"] /\
  map direct future_option data = Normal (NodeRaw future_option, data).
Proof.
  intros data.
  assert (Hnone : Forall (fun name => o_type future_option
                                      <> prop (ApplicationCommandOptionType K) name)
            ["SUB_COMMAND"; "SUB_COMMAND_GROUP"; "STRING"; "INTEGER"; "BOOLEAN";
             "USER"; "CHANNEL"; "ROLE"]).
  { repeat (apply List.Forall_cons; [vm_compute; discriminate|]). apply List.Forall_nil. }
  split; [exact Hnone|].
  exact (unrecognized_option_passes_through direct future_option data Hnone).
Defined.

(** C9 on a payload of type 9. *)
Lemma gateway_posts_absent_result_witness :
  p_type unknown <> prop (InteractionType K) "PING" /\
  p_type unknown <> prop (InteractionType K) "APPLICATION_COMMAND" /\
  handleFromGateway caching_client unknown [timer_fired] =
    ([invoked unknown;
      emit_text (text "debug") "[INTERACTION] unknown type 9";
      api (interactions_callback_post (text "3") (text "tok") None true)],
     Fulfilled ()).
Proof.
  assert (Hping : p_type unknown <> prop (InteractionType K) "PING")
    by (vm_compute; discriminate).
  assert (Hcmd : p_type unknown <> prop (InteractionType K) "APPLICATION_COMMAND")
    by (vm_compute; discriminate).
  split; [exact Hping|]. split; [exact Hcmd|].
  exact (proj2 (gateway_posts_absent_result caching_client unknown [timer_fired] Hping Hcmd)).
Defined.

(** C10 on a command payload without [options]. *)
Lemma command_without_options_is_rejected_witness :
  let data := command None None in
  p_type data <> prop (InteractionType K) "PING" /\
  p_type data = prop (InteractionType K) "APPLICATION_COMMAND" /\
  (p_data data ≫= cd_options) = None /\
  handle caching_client data no_effects [timer_fired] =
    ([invoked data; setTimeout 250],
     Rejected (TypeError "Cannot read property of undefined: map")).
Proof.
  intros data.
  assert (Hping : p_type data <> prop (InteractionType K) "PING")
    by (vm_compute; discriminate).
  do 3 (split; [first [exact Hping | reflexivity]|]).
  exact (proj2 (command_without_options_is_rejected caching_client data _ no_effects
                  [timer_fired] Hping eq_refl eq_refl eq_refl) direct eq_refl).
Defined.

End Standalone.

Section Guilded.

#[local] Existing Instance recording.
#[local] Existing Instance guilded.

(** C5 on a user option in a guild. *)
Lemma user_option_merges_user_witness :
  let data := command (Some [user_option "42"]) (Some tables) in
  let merged := {| rm_fields := rm_fields alice_member; rm_user := Some alice |} in
  option_case (o_type (user_option "42")) = CaseUser /\
  ({[ "42" := alice ]} : gmap string Json) !! ToString (o_value (user_option "42"))
    = Some alice /\
  ({[ "42" := alice_member ]} : gmap string RawMember) !! ToString (o_value (user_option "42"))
    = Some alice_member /\
  map in_guild (user_option "42") data =
    Normal (NodeUser (text "who") (text "USER") (users_added (Some alice) false)
              (Some (members_added merged false)),
            store_member (text "42") merged data).
Proof.
  intros data merged. do 3 (split; [reflexivity|]).
  exact (user_option_merges_user in_guild (user_option "42") data _ tables
           {[ "42" := alice ]} {[ "42" := alice_member ]} alice alice_member
           eq_refl eq_refl eq_refl eq_refl eq_refl eq_refl eq_refl).
Defined.

End Guilded.

(** * The further properties on concrete payloads *)

Section StandaloneFurther.

#[local] Existing Instance recording.
#[local] Existing Instance standalone.

(** X1 on two replies, the timer and a third reply: the first reply is
    the envelope, the second leaves nothing, the third is a followup. *)
Lemma handle_closed_form_witness :
  let data := command (Some three_levels) None in
  p_type data <> prop (InteractionType K) "PING" /\
  p_type data = prop (InteractionType K) "APPLICATION_COMMAND" /\
  CommandInteraction_new bare_client data = Normal nested /\
  handle bare_client data no_effects
    [reply_resolved hello; reply_resolved later; timer_fired; reply_resolved later] =
    (effects (suspended data nested) ++
       [api (webhooks_post (text "app") (text "tok") false (msg_data later) [] true)],
     Fulfilled (Some {| env_type := number 4; env_data := Some (msg_data hello) |})).
Proof.
  intros data.
  assert (Hping : p_type data <> prop (InteractionType K) "PING")
    by (vm_compute; discriminate).
  do 3 (split; [first [exact Hping | reflexivity]|]).
  exact (handle_closed_form bare_client data no_effects nested (reply_resolved hello)
           [reply_resolved later; timer_fired; reply_resolved later]
           Hping eq_refl eq_refl).
Defined.

(** X7 on a request without headers. *)
Lemma middleware_missing_header_witness :
  req_get unsigned "x-signature-ed25519" = None /\
  exists msg, middleware (Some key) caching_client unsigned [timer_fired]
              = ([], Rejected (TypeError msg)).
Proof.
  split; [reflexivity|].
  exact (middleware_missing_header (Some key) caching_client unsigned [timer_fired]
           (or_introl eq_refl)).
Defined.

(** X3 on the timer followed by a reply. *)
Lemma gateway_acknowledges_once_witness :
  let data := command (Some three_levels) None in
  p_type data <> prop (InteractionType K) "PING" /\
  p_type data = prop (InteractionType K) "APPLICATION_COMMAND" /\
  CommandInteraction_new bare_client data = Normal nested /\
  handleFromGateway bare_client data [timer_fired; reply_resolved later] =
    (effects (suspended data nested) ++
       [api (interactions_callback_post (text "2") (text "tok")
               (Some {| env_type := number 5; env_data := None |}) true);
        api (webhooks_post (text "app") (text "tok") false (msg_data later) [] true)],
     Fulfilled ()).
Proof.
  intros data.
  assert (Hping : p_type data <> prop (InteractionType K) "PING")
    by (vm_compute; discriminate).
  do 3 (split; [first [exact Hping | reflexivity]|]).
  exact (gateway_acknowledges_once bare_client data nested timer_fired
           [reply_resolved later] Hping eq_refl eq_refl).
Defined.

(** X9 on a group whose second option is a subcommand without
    [options]. *)
Lemma command_with_bare_container_is_rejected_witness :
  let data := command (Some bare_tree) None in
  p_type data <> prop (InteractionType K) "PING" /\
  p_type data = prop (InteractionType K) "APPLICATION_COMMAND" /\
  existsb bare bare_tree = true /\
  exists e, handle bare_client data no_effects [timer_fired]
            = ([invoked data; setTimeout 250], Rejected e).
Proof.
  intros data.
  assert (Hping : p_type data <> prop (InteractionType K) "PING")
    by (vm_compute; discriminate).
  do 3 (split; [first [exact Hping | reflexivity]|]).
  refine (command_with_bare_container_is_rejected bare_client data no_effects
            [timer_fired] Hping eq_refl (or_intror _)).
  eexists _, bare_tree. repeat split.
Defined.

(** X13 on a list with a command without [options], and on a list
    without one. *)
Lemma setCommands_all_or_nothing_witness :
  Exists (fun command => cmd_options command = None) [echo; optionless] /\
  Forall (fun command => is_Some (cmd_options command)) [echo] /\
  (exists msg, setCommands as_received web_client [echo; optionless] undefined []
               = Throw (TypeError msg)) /\
  (exists data, setCommands as_received web_client [echo] (text "9") []
                = Normal (commands_put (text "app") (Some (text "9")) data, Normal []) /\
                Forall2 (fun command d => transformCommand command = Normal d) [echo] data).
Proof.
  assert (Hbad : Exists (fun command => cmd_options command = None) [echo; optionless]).
  { apply Exists_cons_tl, Exists_cons_hd. reflexivity. }
  assert (Hgood : Forall (fun command => is_Some (cmd_options command)) [echo]).
  { repeat constructor. by eexists. }
  split; [exact Hbad|]. split; [exact Hgood|]. split.
  - exact (proj1 (setCommands_all_or_nothing _ as_received web_client [echo; optionless]
                    undefined []) Hbad).
  - exact (proj2 (setCommands_all_or_nothing _ as_received web_client [echo]
                    (text "9") []) Hgood).
Defined.

(** X14 on a client whose [clientID] is [undefined]. *)
Lemma createCommand_route_witness :
  exists call1 k1 call2 k2,
    setCommands as_received web_client [echo] undefined [] = Normal (call1, k1) /\
    createCommand as_received web_client echo undefined (JValue null) = Normal (call2, k2) /\
    route_of call1 = (text "app", None) /\
    route_of call2 = (undefined, None) /\
    (route_of call2 = route_of call1 <->
     ic_clientID web_client = ic_applicationID web_client).
Proof.
  do 4 eexists. do 4 (split; [reflexivity|]).
  exact (proj2 (createCommand_route _ as_received web_client echo undefined []
                  (JValue null) _ _ _ _ eq_refl eq_refl)).
Defined.

(** X4 on a signed ping. *)
Lemma ping_over_transports_witness :
  p_type ping = prop (InteractionType K) "PING" /\
  handleFromGateway caching_client ping [timer_fired] =
    ([invoked ping;
      api (interactions_callback_post (text "1") (text "tok")
             (Some {| env_type := number 1; env_data := None |}) true)],
     Fulfilled ()) /\
  middleware (Some key) caching_client (request "key") [timer_fired] =
    ([invoked ping; res_status 200; res_end (Some "1")], Fulfilled ()).
Proof.
  assert (Hping : p_type ping = prop (InteractionType K) "PING") by reflexivity.
  split; [exact Hping|].
  destruct (ping_over_transports (Some key) caching_client (request "key") [timer_fired]
              "1700000000" "key" ping Hping) as [Hgateway Hwebhook].
  split; [exact Hgateway|].
  exact (Hwebhook eq_refl eq_refl eq_refl eq_refl).
Defined.

End StandaloneFurther.

Section GuildedFurther.

#[local] Existing Instance recording.
#[local] Existing Instance guilded.

(** X10 on two user options of one value: the payload has changed, and
    only in the [user] of a member payload. *)
Lemma resolution_only_assigns_member_users_witness :
  let raw := [user_option "42"; user_option "42"] in
  let data := command (Some raw) (Some tables) in
  exists out data1,
    Array_map (map in_guild) raw data = Normal (out, data1) /\
    data1 <> data /\
    forget_users data1 = forget_users data.
Proof.
  intros raw data.
  destruct (Array_map (map in_guild) raw data) as [[out data1]|] eqn:Hl;
    [|discriminate Hl].
  exists out, data1. split; [reflexivity|]. split.
  - intros ->. vm_compute in Hl. discriminate Hl.
  - exact (resolution_only_assigns_member_users in_guild raw data out data1 Hl).
Defined.

(** X11 on two user options of one value: both hand over the user
    payload and the member payload with that user. *)
Lemma options_resolve_independently_witness :
  let raw := [user_option "42"; user_option "42"] in
  let data := command (Some raw) (Some tables) in
  let node := NodeUser (text "who") (text "USER") (users_added (Some alice) false)
                (Some (members_added
                         {| rm_fields := rm_fields alice_member; rm_user := Some alice |}
                         false)) in
  forallb identified raw = true /\
  (exists data1, Array_map (map (recorder true true true)) raw data
                 = Normal ([node; node], data1)) /\
  Forall2 (fun o n => fst <$> map (recorder true true true) o data = Normal n)
    raw [node; node].
Proof.
  intros raw data node.
  destruct (Array_map (map (recorder true true true)) raw data)
    as [[out data1]|] eqn:Hl; [|discriminate Hl].
  assert (Hout : out = [node; node]).
  { vm_compute in Hl. injection Hl as <- _. reflexivity. }
  subst out.
  split; [reflexivity|]. split; [by exists data1|].
  exact (options_resolve_independently true ping true true true raw data
           [node; node] data1 eq_refl Hl).
Defined.

End GuildedFurther.

Section Commanded.

#[local] Existing Instance recording.
#[local] Existing Instance commanded.

(** X2 on a signed request whose body is a command, answered by the
    timer. *)
Lemma middleware_answers_once_witness :
  let data := command (Some three_levels) None in
  sodium_verify (Buffer_from_hex "key")
    (Buffer_from "1700000000" ++ concat (req_chunks (request "key"))) (Some key)
    = Normal true /\
  JSON_parse (Buffer_toString (concat (req_chunks (request "key")))) = Normal data /\
  CommandInteraction_new bare_client data = Normal nested /\
  middleware (Some key) bare_client (request "key") [timer_fired; reply_resolved later] =
    (effects (suspended data nested) ++
       [res_status 200; res_end (Some "5");
        api (webhooks_post (text "app") (text "tok") false (msg_data later) [] true)],
     Fulfilled ()).
Proof.
  intros data.
  assert (Hping : p_type data <> prop (InteractionType K) "PING")
    by (vm_compute; discriminate).
  do 3 (split; [reflexivity|]).
  exact (middleware_answers_once (Some key) bare_client (request "key")
           "1700000000" "key" data nested timer_fired [reply_resolved later]
           eq_refl eq_refl eq_refl eq_refl Hping eq_refl eq_refl).
Defined.

End Commanded.

Section Puzzled.

#[local] Existing Instance recording.
#[local] Existing Instance puzzled.

(** X5 on a signed request whose body is of type 9. *)
Lemma middleware_answers_unknown_type_witness :
  JSON_parse (Buffer_toString (concat (req_chunks (request "key")))) = Normal unknown /\
  middleware (Some key) caching_client (request "key") [] =
    ([invoked unknown; emit_text (text "debug") "[INTERACTION] unknown type 9";
      res_status 200; res_end None],
     Fulfilled ()).
Proof.
  assert (Hping : p_type unknown <> prop (InteractionType K) "PING")
    by (vm_compute; discriminate).
  assert (Hcmd : p_type unknown <> prop (InteractionType K) "APPLICATION_COMMAND")
    by (vm_compute; discriminate).
  split; [reflexivity|].
  exact (middleware_answers_unknown_type (Some key) caching_client (request "key") []
           "1700000000" "key" unknown eq_refl eq_refl eq_refl eq_refl Hping Hcmd).
Defined.

End Puzzled.

Section Broken.

#[local] Existing Instance recording.
#[local] Existing Instance broken.

(** X8 on a command without [options], over both transports. *)
Lemma failed_construction_is_not_acknowledged_witness :
  let data := command None None in
  CommandInteraction_new caching_client data
    = Throw (TypeError "Cannot read property of undefined: map") /\
  handleFromGateway caching_client data [timer_fired]
    = ([invoked data; setTimeout 250],
       Rejected (TypeError "Cannot read property of undefined: map")) /\
  middleware (Some key) caching_client (request "key") [timer_fired]
    = ([invoked data; setTimeout 250],
       Rejected (TypeError "Cannot read property of undefined: map")).
Proof.
  intros data.
  assert (Hping : p_type data <> prop (InteractionType K) "PING")
    by (vm_compute; discriminate).
  split; [reflexivity|].
  destruct (failed_construction_is_not_acknowledged (Some key) caching_client
              (request "key") [timer_fired] "1700000000" "key" data _
              Hping eq_refl eq_refl) as [Hgateway Hwebhook].
  split; [exact Hgateway|].
  exact (Hwebhook eq_refl eq_refl eq_refl eq_refl).
Defined.

End Broken.

Section Strict.

#[local] Existing Instance recording.
#[local] Existing Instance strict.

(** X6 on a signed request with an empty body. *)
Lemma middleware_malformed_body_witness :
  JSON_parse (Buffer_toString (concat (req_chunks (request "key"))))
    = Throw (SyntaxError "Unexpected end of JSON input") /\
  middleware (Some key) caching_client (request "key") [timer_fired]
    = ([], Rejected (SyntaxError "Unexpected end of JSON input")).
Proof.
  split; [reflexivity|].
  exact (middleware_malformed_body (Some key) caching_client (request "key")
           [timer_fired] "1700000000" "key" _ eq_refl eq_refl eq_refl eq_refl).
Defined.

End Strict.
